(** * The Defira connector (gateway/src/connectors/defira/defira.ts)

    A shallow embedding of the [Defira] class: the instance registry, [init]
    and [ready], the token lookup, slippage resolution, the two trade
    estimators and [executeTrade], followed by the properties of the
    connector's specification.

    Collaborators that live outside the file (the chain client, the nonce
    manager, the pair fetcher, the trade mathematics, the contract call
    surface, the validators and the configuration) are taken as parameters:
    pure ones are fields of [Env], awaited ones are the calls of [Prog], whose
    answers come from arbitrary handlers over an arbitrary world. *)

From Stdlib Require Import ZArith Ascii String List Lia DecimalString.
From Stdlib Require Import Floats.SpecFloat.
From stdpp Require Import base option gmap strings list fin_maps.

Local Open Scope string_scope.
Local Open Scope Z_scope.

(** ** Exceptions and results *)

(** What a [throw] (or a rejected promise) carries.  [InitializationError],
    [UniswapishPriceError] are the classes of services/error-handler; [JsError]
    is the plain [Error] of line 179; [Rejected] is whatever an external
    collaborator throws. *)
Inductive Exn : Type :=
| InitializationError (message : string) (errorCode : Z)
| UniswapishPriceError (message : string)
| JsError (message : string)
| Rejected (reason : string).

Inductive result (A : Type) : Type :=
| Ok (a : A)
| Throw (e : Exn).
Arguments Ok {A} a.
Arguments Throw {A} e.

Definition is_ok {A} (r : result A) : bool :=
  match r with Ok _ => true | Throw _ => false end.

Definition rbind {A B} (r : result A) (k : A -> result B) : result B :=
  match r with
  | Ok a => k a
  | Throw e => Throw e
  end.

(** ** Strings *)

(** [s.split(sep)] for a one-character separator: the pieces between the
    occurrences of [sep], in order; a string without [sep] is its own only
    piece, also when it is empty. *)
Fixpoint split (sep : ascii) (s : string) : list string :=
  match s with
  | EmptyString => [EmptyString]
  | String c s' =>
      if Ascii.eqb c sep then EmptyString :: split sep s'
      else match split sep s' with
           | [] => [String c EmptyString]
           | piece :: pieces => String c piece :: pieces
           end
  end.

(** [c] occurs in [s]. *)
Fixpoint occurs (c : ascii) (s : string) : bool :=
  match s with
  | EmptyString => false
  | String c' s' => Ascii.eqb c' c || occurs c s'
  end.

(** [s.startsWith(needle)] and [s.includes(needle)]. *)
Fixpoint starts_with (needle s : string) : bool :=
  match needle, s with
  | EmptyString, _ => true
  | String a needle', String b s' => Ascii.eqb a b && starts_with needle' s'
  | String _ _, EmptyString => false
  end.

Fixpoint includes (needle s : string) : bool :=
  starts_with needle s ||
  match s with
  | EmptyString => false
  | String _ s' => includes needle s'
  end.

(** ** Tokens, amounts and tolerances (the @uniswap/sdk values the connector
    builds) *)

Record UniswapToken : Type := mkToken {
  tok_chainId : Z;
  address : string;
  decimals : Z;
  symbol : option string;
  name : option string
}.

(** A token amount: the token and its raw amount. *)
Record UniswapTokenAmount : Type := mkTokenAmount {
  ta_token : UniswapToken;
  ta_raw : Z
}.

(** A [Percent] is the pair of big integers its constructor stored. *)
Record UniswapPercent : Type := mkPercent {
  numerator : Z;
  denominator : Z
}.

(** The entry of [harmony.storedTokenList]. *)
Record TokenInfo : Type := mkTokenInfo {
  ti_address : string;
  ti_decimals : Z;
  ti_symbol : string;
  ti_name : string
}.

(** [`${x}`] for an optional string: [undefined] prints as its name. *)
Definition template_opt (x : option string) : string :=
  match x with
  | Some s => s
  | None => "undefined"
  end.

(** [`${token}`] for a token object: the class defines no [toString], so the
    template literal prints what [Object.prototype.toString] gives. *)
Definition template_token (_ : UniswapToken) : string := "[object Object]".

(** ** Pairs, trades and call parameters (values of the sdk) *)

Record UniswapPair : Type := mkPair {
  reserve0 : UniswapTokenAmount;
  reserve1 : UniswapTokenAmount
}.

Inductive TradeType : Type := EXACT_INPUT | EXACT_OUTPUT.

Record UniswapTrade : Type := mkTrade {
  route : list UniswapPair;
  tradeType : TradeType;
  inputAmount : UniswapTokenAmount;
  outputAmount : UniswapTokenAmount
}.

(** The options literal [{ maxHops: 1 }]. *)
Record BestTradeOptions : Type := mkBestTradeOptions {
  maxHops : Z
}.

(** The options literal of line 314. *)
Record TradeOptions : Type := mkTradeOptions {
  opt_ttl : Z;
  opt_recipient : string;
  opt_allowedSlippage : UniswapPercent
}.

Inductive Arg : Type :=
| ArgString (s : string)
| ArgStrings (l : list string).

Record SwapParameters : Type := mkSwapParameters {
  methodName : string;
  args : list Arg;
  value : string
}.

Record ExpectedTrade : Type := mkExpectedTrade {
  trade : UniswapTrade;
  expectedAmount : UniswapTokenAmount
}.

(** ** Wallets and contracts (values of ethers) *)

Record Wallet : Type := mkWallet {
  wallet_address : string
}.

Definition ContractInterface : Type := list string.

(** What [new Contract(address, abi, signer)] holds. *)
Record Contract : Type := mkContract {
  contract_address : string;
  contract_interface : ContractInterface;
  contract_signer : Wallet
}.

(** ** Numbers

    A JavaScript number is an IEEE 754 binary64 value; [*] rounds to nearest,
    ties to even.  The two operations of lines 327 and 335-336 are written
    out: [x * 1e9] and [x.toFixed(0)]. *)

Definition number : Type := spec_float.
Definition prec : Z := 53.
Definition emax : Z := 1024.

(** The number nearest to [m * 2^e], and the number written as an integer
    literal. *)
Definition number_of_ratio (m e : Z) : number :=
  binary_normalize prec emax m e false.
Definition js_number (z : Z) : number := number_of_ratio z 0.

(** [x * 1e9]. *)
Definition times_1e9 (x : number) : number :=
  SFmul prec emax x (js_number 1000000000).

(** The decimal digits of an integer. *)
Definition decimal_string (z : Z) : string :=
  DecimalString.NilZero.string_of_int (Z.to_int z).

(** The integer nearest to [m * 2^e], the larger one of two. *)
Definition round_half_up (m : positive) (e : Z) : Z :=
  if 0 <=? e then Z.pos m * 2 ^ e
  else (2 * Z.pos m + 2 ^ (- e)) / 2 ^ (1 - e).

(** [m * 2^e >= 10^21]. *)
Definition at_least_1e21 (m : positive) (e : Z) : bool :=
  if 0 <=? e then 10 ^ 21 <=? Z.pos m * 2 ^ e
  else 10 ^ 21 * 2 ^ (- e) <=? Z.pos m.

(** [m * 2^e] is the integer [G]. *)
Definition is_integer (m : positive) (e G : Z) : Prop :=
  if 0 <=? e then Z.pos m * 2 ^ e = G else Z.pos m = G * 2 ^ (- e).

(** [N] is an integer nearest to [m * 2^e], the larger one of two: twice the
    distance is at most one, and [N] is not a half below. *)
Definition nearest_integer (m : positive) (e N : Z) : Prop :=
  if 0 <=? e then N = Z.pos m * 2 ^ e
  else 2 * Z.pos m - 2 ^ (- e) < 2 * N * 2 ^ (- e) <= 2 * Z.pos m + 2 ^ (- e).

(** [Number::toString] of a number [m * 2^e] that is at least [10^21]: the
    fewest digits [s] (there are [k] of them) and the exponent [n] for which
    [s * 10^(n-k)] rounds back to the number, the nearest such [s], in
    exponent notation.  Quantities are scaled by [scale] so that the number
    and the halves of its gaps to the neighbouring numbers are integers. *)
Section Shortest.
Context (m : positive) (e : Z).

Definition scale_shift : Z := Z.max 0 (- e).
Definition scale : Z := 4 * 2 ^ scale_shift.
Definition scaled : Z := 4 * Z.pos m * 2 ^ (e + scale_shift).
Definition half_up : Z := 2 * 2 ^ (e + scale_shift).
Definition half_down : Z :=
  if Z.pos m =? 2 ^ 52 then 2 ^ (e + scale_shift) else half_up.

Definition rounds_back (c : Z) : bool :=
  if Z.even (Z.pos m)
  then (scaled - half_down <=? c) && (c <=? scaled + half_up)
  else (scaled - half_down <? c) && (c <? scaled + half_up).

Definition integer_digits : Z :=
  Z.of_nat (String.length (decimal_string (scaled / scale))).

(** The pairs [(s, n)] with [k] digits that round back. *)
Definition candidates (k : Z) : list (Z * Z) :=
  flat_map
    (fun n =>
       let unit := 10 ^ (n - k) * scale in
       let s0 := scaled / unit in
       List.filter
         (fun sn => (10 ^ (k - 1) <=? fst sn) && (fst sn <? 10 ^ k)
                    && rounds_back (fst sn * unit))
         [(s0, n); (s0 + 1, n)])
    [integer_digits; integer_digits + 1].

Definition distance (k : Z) (sn : Z * Z) : Z :=
  Z.abs (fst sn * 10 ^ (snd sn - k) * scale - scaled).

Definition closer (k : Z) (a b : Z * Z) : Z * Z :=
  if distance k b <? distance k a then b
  else if (distance k b =? distance k a) && Z.even (fst b) then b else a.

Definition best (k : Z) : option (Z * Z) :=
  match candidates k with
  | [] => None
  | c :: cs => Some (fold_left (closer k) cs c)
  end.

Fixpoint shortest (fuel : nat) (k : Z) : Z * Z * Z :=
  match best k, fuel with
  | Some (s, n), _ => (s, n, k)
  | None, S fuel' => shortest fuel' (k + 1)
  | None, O => (scaled / scale, integer_digits, integer_digits)
  end.

Definition exponent_notation : string :=
  let '(s, n, k) := shortest 16 1 in
  match decimal_string s with
  | String d ds =>
      String d (match ds with EmptyString => "" | _ => "." +:+ ds end)
        +:+ "e+" +:+ decimal_string (n - 1)
  | EmptyString => ""
  end.
End Shortest.

(** [x.toFixed(0)]: a number that is not finite prints as its name; the sign
    is set apart; from [10^21] on the number prints as [String(x)] does, in
    exponent notation; below, as the nearest integer in decimal. *)
Definition toFixed0 (x : number) : string :=
  match x with
  | S754_nan => "NaN"
  | S754_infinity s => if s then "-Infinity" else "Infinity"
  | S754_zero _ => "0"
  | S754_finite s m e =>
      (if s then "-" else "") +:+
      (if at_least_1e21 m e then exponent_notation m e
       else decimal_string (round_half_up m e))
  end.

(** ** The pure collaborators *)

Record Env : Type := mkEnv {
  (** services/validators *)
  isFractionString : string -> bool;
  (** [str.match(percentRegexp)]: [None] is [null]; otherwise the groups
      [nd[1]] and [nd[2]], each possibly [undefined]. *)
  percentRegexp_match : string -> option (option string * option string);
  (** [DefiraConfig.config] *)
  config_allowedSlippage : string;
  config_ttl : Z;
  config_gasLimit : Z;
  config_routerAddress : string -> string;
  (** [routerAbi.abi] of defira_v2_router_abi.json *)
  routerAbi_abi : ContractInterface;
  (** services/error-handler *)
  SERVICE_UNITIALIZED_ERROR_CODE : Z;
  SERVICE_UNITIALIZED_ERROR_MESSAGE : string -> string;
  (** the sdk's conversion of a constructor argument to a big integer;
      it throws on what is not a number *)
  parseBigintIsh : option string -> result Z;
  (** the constructors of the sdk and of ethers that check their arguments:
      [new UniswapToken(chainId, address, decimals, symbol, name)],
      [new UniswapTokenAmount(token, amount.toString())] and
      [new Contract(address, abi, signer)] *)
  newUniswapToken :
    Z -> string -> Z -> string -> string -> result UniswapToken;
  newUniswapTokenAmount : UniswapToken -> Z -> result UniswapTokenAmount;
  newContract : string -> ContractInterface -> Wallet -> result Contract;
  (** the trade mathematics of the sdk; each may throw *)
  bestTradeExactIn :
    list UniswapPair -> UniswapTokenAmount -> UniswapToken ->
    BestTradeOptions -> result (option (list UniswapTrade));
  bestTradeExactOut :
    list UniswapPair -> UniswapToken -> UniswapTokenAmount ->
    BestTradeOptions -> result (option (list UniswapTrade));
  minimumAmountOut :
    UniswapTrade -> UniswapPercent -> result UniswapTokenAmount;
  maximumAmountIn :
    UniswapTrade -> UniswapPercent -> result UniswapTokenAmount;
  (** [trade.executionPrice.toFixed(6)] and
      [trade.executionPrice.invert().toFixed(6)]; each may throw (a price
      over a zero amount divides by zero) *)
  executionPrice_toFixed6 : UniswapTrade -> result string;
  executionPrice_invert_toFixed6 : UniswapTrade -> result string;
  (** [UniswapRouter.swapCallParameters] *)
  swapCallParameters : UniswapTrade -> TradeOptions -> result SwapParameters
}.

(** ** Slippage resolution *)

Section Slippage.
Context (E : Env).

(** [new UniswapPercent(n, d)]: the second parameter defaults to one when it
    is [undefined]. *)
Definition newUniswapPercent (n d : option string) : result UniswapPercent :=
  rbind (parseBigintIsh E n) (fun num =>
  rbind (match d with
         | Some _ => parseBigintIsh E d
         | None => Ok 1
         end) (fun den =>
  Ok (mkPercent num den))).

Definition malformed_percent : Exn :=
  JsError
    "Encountered a malformed percent string in the config for ALLOWED_SLIPPAGE.".

(** Lines 176-181: the configured default. *)
Definition configuredSlippage : result UniswapPercent :=
  match percentRegexp_match E (config_allowedSlippage E) with
  | Some (nd1, nd2) => newUniswapPercent nd1 nd2
  | None => Throw malformed_percent
  end.

(** Lines 170-182.  [None] is an absent ([undefined] or [null]) argument. *)
Definition getAllowedSlippage (allowedSlippageStr : option string)
  : result UniswapPercent :=
  match allowedSlippageStr with
  | Some s =>
      if isFractionString E s then
        let fractionSplit := split "/" s in
        newUniswapPercent (fractionSplit !! 0%nat) (fractionSplit !! 1%nat)
      else configuredSlippage
  | None => configuredSlippage
  end.
End Slippage.

(** The environment with another configured default slippage. *)
Definition with_allowedSlippage (configured : string) (E : Env) : Env :=
  {| isFractionString := isFractionString E;
     percentRegexp_match := percentRegexp_match E;
     config_allowedSlippage := configured;
     config_ttl := config_ttl E;
     config_gasLimit := config_gasLimit E;
     config_routerAddress := config_routerAddress E;
     routerAbi_abi := routerAbi_abi E;
     SERVICE_UNITIALIZED_ERROR_CODE := SERVICE_UNITIALIZED_ERROR_CODE E;
     SERVICE_UNITIALIZED_ERROR_MESSAGE := SERVICE_UNITIALIZED_ERROR_MESSAGE E;
     parseBigintIsh := parseBigintIsh E;
     newUniswapToken := newUniswapToken E;
     newUniswapTokenAmount := newUniswapTokenAmount E;
     newContract := newContract E;
     bestTradeExactIn := bestTradeExactIn E;
     bestTradeExactOut := bestTradeExactOut E;
     minimumAmountOut := minimumAmountOut E;
     maximumAmountIn := maximumAmountIn E;
     executionPrice_toFixed6 := executionPrice_toFixed6 E;
     executionPrice_invert_toFixed6 := executionPrice_invert_toFixed6 E;
     swapCallParameters := swapCallParameters E |}.

(** ** Objects used as maps

    [tokenList] and [_instances] are plain objects indexed by strings.  A
    read [o[key]] or a test [key in o] that finds no property of the object
    itself goes on to the prototype of the object, [Object.prototype], which
    holds these names. *)
Definition Object_prototype_names : list string :=
  [ "constructor"; "__defineGetter__"; "__defineSetter__"; "hasOwnProperty";
    "__lookupGetter__"; "__lookupSetter__"; "isPrototypeOf";
    "propertyIsEnumerable"; "toString"; "valueOf"; "__proto__";
    "toLocaleString" ].

Definition inherited (key : string) : bool :=
  existsb (String.eqb key) Object_prototype_names.

(** ** The connector object *)

(** Object identities: what [===] compares on two connectors. *)
Definition loc : Type := nat.

(** What a read of [_instances] gives: a connector, by its identity, or the
    member of [Object.prototype] of the name read. *)
Inductive Ref : Type :=
| Connector (l : loc)
| ObjectPrototypeMember (name : string).

(** What a read of [tokenList] gives: [undefined], a token, the member of
    [Object.prototype] of the name read, or, once a token was made the
    prototype of the list, what that token object answers for the name. *)
Inductive TokenRead : Type :=
| NoToken
| Token (t : UniswapToken)
| ObjectMember (name : string)
| TokenMember (t : UniswapToken) (name : string).

(** The state of the chain client [this.harmony] that [init] reads. *)
Record Harmony : Type := mkHarmony {
  hmy_ready : bool;
  storedTokenList : list TokenInfo
}.

(** The fields of lines 58-67.  [harmony] is the chain client, named by its
    network; [_factory] is [None] while it is [null].  [tokenList] holds what
    the assignments of line 109 stored: the properties of the object itself
    and, under "__proto__", the token that an assignment to that name made
    the prototype of the object (the assignment runs the setter of
    [Object.prototype] and creates no property). *)
Record Defira : Type := mkDefira {
  harmony : string;
  _chain : string;
  _router : string;
  _factory : option string;
  _routerAbi : ContractInterface;
  _gasLimit : Z;
  _ttl : Z;
  chainId : Z;
  tokenList : gmap string UniswapToken;
  _ready : bool
}.

Section Connector.
Context (E : Env).
(** [Harmony.getInstance(network).chainId] *)
Context (harmony_chainId : string -> Z).

(** Lines 66-79: the field initialisers and the constructor. *)
Definition newDefira (chain network : string) : Defira :=
  {| harmony := network;
     _chain := chain;
     _router := config_routerAddress E network;
     _factory := None;
     _routerAbi := routerAbi_abi E;
     _gasLimit := config_gasLimit E;
     _ttl := config_ttl E;
     chainId := harmony_chainId network;
     tokenList := ∅;
     _ready := false |}.

(** Lines 98-100: a property read.  A stored token is found first (under
    "__proto__" the read gives the prototype, the token stored there); then
    the prototype answers: the token made the prototype, if any, or
    [Object.prototype]. *)
Definition getTokenByAddress (this : Defira) (addr : string) : TokenRead :=
  match tokenList this !! addr with
  | Some t => Token t
  | None =>
      match tokenList this !! "__proto__" with
      | Some p => TokenMember p addr
      | None => if inherited addr then ObjectMember addr else NoToken
      end
  end.

(** Lines 108-116: the loop over the stored tokens, which stops at the first
    token the constructor refuses, the earlier ones stored. *)
Fixpoint storeTokens (cid : Z) (tokens : list TokenInfo)
    (tl : gmap string UniswapToken) : result unit * gmap string UniswapToken :=
  match tokens with
  | [] => (Ok tt, tl)
  | token :: rest =>
      match newUniswapToken E cid (ti_address token) (ti_decimals token)
                            (ti_symbol token) (ti_name token) with
      | Ok t => storeTokens cid rest (<[ti_address token := t]> tl)
      | Throw e => (Throw e, tl)
      end
  end.

Definition uninitialized : Exn :=
  InitializationError (SERVICE_UNITIALIZED_ERROR_MESSAGE E "HMY")
                      (SERVICE_UNITIALIZED_ERROR_CODE E).

Definition with_tokens (this : Defira) (tl : gmap string UniswapToken)
    (isReady : bool) : Defira :=
  {| harmony := harmony this;
     _chain := _chain this;
     _router := _router this;
     _factory := _factory this;
     _routerAbi := _routerAbi this;
     _gasLimit := _gasLimit this;
     _ttl := _ttl this;
     chainId := chainId this;
     tokenList := tl;
     _ready := isReady |}.

(** Lines 102-118.  [hmy] is the chain client as it is when [init] runs;
    the connector after the call comes with the outcome. *)
Definition init (hmy : Harmony) (this : Defira) : result unit * Defira :=
  if String.eqb (_chain this) "harmony" && negb (hmy_ready hmy) then
    (Throw uninitialized, this)
  else
    match storeTokens (chainId this) (storedTokenList hmy)
                      (tokenList this) with
    | (Ok _, tl) => (Ok tt, with_tokens this tl true)
    | (Throw e, tl) => (Throw e, with_tokens this tl (_ready this))
    end.

(** Lines 120-122. *)
Definition ready (this : Defira) : bool := _ready this.

(** Lines 127-162: the getters. *)
Definition router (this : Defira) : string := _router this.
Definition routerAbi (this : Defira) : ContractInterface := _routerAbi this.
Definition gasLimit (this : Defira) : Z := _gasLimit this.
Definition ttl (this : Defira) : Z := _ttl this.

(** A connector's life after construction: a sequence of [init] calls, each
    meeting the chain client in some state. *)
Definition inits (calls : list Harmony) (this : Defira) : Defira :=
  fold_left (fun d hmy => snd (init hmy d)) calls this.

(** Some call of the sequence completed: scanning in order, with the
    connector each call meets. *)
Fixpoint some_init_completed (calls : list Harmony) (this : Defira) : bool :=
  match calls with
  | [] => false
  | hmy :: rest =>
      is_ok (fst (init hmy this)) ||
      some_init_completed rest (snd (init hmy this))
  end.

(** *** The registry *)

(** The process: the static [Defira._instances] ([None] while it is
    [undefined]) and the connectors allocated so far, by identity. *)
Record Process : Type := mkProcess {
  _instances : option (gmap string loc);
  heap : gmap loc Defira;
  next_loc : loc
}.

Definition boot : Process :=
  {| _instances := None; heap := ∅; next_loc := 0%nat |}.

Definition registry (σ : Process) : gmap string loc :=
  default ∅ (_instances σ).

(** [key in o] and [o[key]] for the registry: the connectors stored, then
    the names of [Object.prototype].  ([None] is [undefined].) *)
Definition has_key (o : gmap string loc) (key : string) : bool :=
  match o !! key with
  | Some _ => true
  | None => inherited key
  end.

Definition read_key (o : gmap string loc) (key : string) : option Ref :=
  match o !! key with
  | Some l => Some (Connector l)
  | None => if inherited key then Some (ObjectPrototypeMember key) else None
  end.

(** Lines 81-90.  The answer is the property read of line 89.  The
    assignment of line 86 is reached for no inherited name, so it always
    creates a property of the object itself. *)
Definition getInstance (chain network : string) (σ : Process)
  : option Ref * Process :=
  let σ1 :=
    match _instances σ with
    | None =>
        {| _instances := Some ∅; heap := heap σ; next_loc := next_loc σ |}
    | Some _ => σ
    end in
  let key := chain +:+ network in
  let σ2 :=
    if has_key (registry σ1) key then σ1
    else
      {| _instances := Some (<[key := next_loc σ1]> (registry σ1));
         heap := <[next_loc σ1 := newDefira chain network]> (heap σ1);
         next_loc := S (next_loc σ1) |} in
  (read_key (registry σ2) key, σ2).

(** What a process does with the class: it asks for instances and
    initialises the ones it holds. *)
Inductive Op : Type :=
| CallGetInstance (chain network : string)
| CallInit (this : loc) (hmy : Harmony).

Definition run_op (σ : Process) (op : Op) : Process :=
  match op with
  | CallGetInstance chain network => snd (getInstance chain network σ)
  | CallInit this hmy =>
      match heap σ !! this with
      | Some d =>
          {| _instances := _instances σ;
             heap := <[this := snd (init hmy d)]> (heap σ);
             next_loc := next_loc σ |}
      | None => σ
      end
  end.

Definition run_ops (ops : list Op) (σ : Process) : Process :=
  fold_left run_op ops σ.
End Connector.

(** What holds of the registry of every process: it stores no inherited
    name, the identities it hands out were allocated, each is a live
    connector, and no two keys share one. *)
Record registry_wf (σ : Process) : Prop := mkRegistryWf {
  wf_own :
    forall key l, registry σ !! key = Some l -> inherited key = false;
  wf_allocated :
    forall key l, registry σ !! key = Some l -> (l < next_loc σ)%nat;
  wf_live :
    forall l, (l < next_loc σ)%nat -> is_Some (heap σ !! l);
  wf_distinct :
    forall key1 key2 l,
      registry σ !! key1 = Some l -> registry σ !! key2 = Some l ->
      key1 = key2
}.

(** The three ways a call can go. *)
Variant getInstance_case (chain network : string) (σ : Process) : Prop :=
| case_cached (l : loc)
    (Hown : registry σ !! (chain +:+ network) = Some l)
| case_inherited
    (Hown : registry σ !! (chain +:+ network) = None)
    (Hinh : inherited (chain +:+ network) = true)
| case_created
    (Hown : registry σ !! (chain +:+ network) = None)
    (Hinh : inherited (chain +:+ network) = false).

(** ** Awaited collaborators *)

Record ContractTransaction : Type := mkContractTransaction {
  hash : string
}.

(** The values of the fields of the overrides literal of lines 326-339. *)
Inductive JsValue : Type :=
| JUndefined
| JString (s : string)
| JNumber (n : Z)
| JBigNumber (b : Z).

(** An object literal: its own properties, in the order written. *)
Definition JsObject : Type := list (string * JsValue).

(** The value of an own property; [None] when the object has no such
    property (which differs from a property holding [undefined]). *)
Fixpoint field (key : string) (o : JsObject) : option JsValue :=
  match o with
  | [] => None
  | (k, v) :: rest => if String.eqb k key then Some v else field key rest
  end.

(** An optional [BigNumber] argument as a property value. *)
Definition js_big (x : option Z) : JsValue :=
  match x with
  | Some b => JBigNumber b
  | None => JUndefined
  end.

Inductive LogMsg : Type :=
| LogText (s : string)
| LogTx (tx : ContractTransaction).

(** An asynchronous method body: what it computes, interleaved with the
    calls it awaits (and its logging).  A rejected call ends the method with
    the rejection, since no call of the file is guarded by [try]. *)
Inductive Prog (A : Type) : Type :=
| Return (a : A)
| Raise (e : Exn)
| LoggerInfo (m : LogMsg) (k : Prog A)
| FetchPairData (tokenA tokenB : UniswapToken) (provider : string)
                (k : UniswapPair -> Prog A)
| GetNonce (addr : string) (k : Z -> Prog A)
| CommitNonce (addr : string) (nonce : Z) (k : Prog A)
| ContractCall (c : Contract) (method : string) (arguments : list Arg)
               (overrides : JsObject) (k : ContractTransaction -> Prog A).
Arguments Return {A} a.
Arguments Raise {A} e.
Arguments LoggerInfo {A} m k.
Arguments FetchPairData {A} tokenA tokenB provider k.
Arguments GetNonce {A} addr k.
Arguments CommitNonce {A} addr nonce k.
Arguments ContractCall {A} c method arguments overrides k.

Fixpoint bind {A B} (p : Prog A) (f : A -> Prog B) : Prog B :=
  match p with
  | Return a => f a
  | Raise e => Raise e
  | LoggerInfo m k => LoggerInfo m (bind k f)
  | FetchPairData a b pr k => FetchPairData a b pr (fun x => bind (k x) f)
  | GetNonce addr k => GetNonce addr (fun n => bind (k n) f)
  | CommitNonce addr n k => CommitNonce addr n (bind k f)
  | ContractCall c m a o k => ContractCall c m a o (fun tx => bind (k tx) f)
  end.

Definition lift {A} (r : result A) : Prog A :=
  match r with
  | Ok a => Return a
  | Throw e => Raise e
  end.

Notation "'let*' x ':=' p 'in' q" := (bind p (fun x => q))
  (at level 10, x name, p at level 100, q at level 200).

(** What a run leaves behind. *)
Inductive Event : Type :=
| Logged (m : LogMsg)
| Fetched (tokenA tokenB : UniswapToken) (provider : string)
          (r : result UniswapPair)
| NonceRequested (addr : string) (r : result Z)
| NonceCommitted (addr : string) (nonce : Z) (r : result unit)
| Submitted (c : Contract) (method : string) (arguments : list Arg)
            (overrides : JsObject) (r : result ContractTransaction).

(** The awaited collaborators, as functions of a world [W] they may change:
    the pair fetcher, [harmony.nonceManager] and the contract call surface. *)
Record Handlers (W : Type) : Type := mkHandlers {
  on_fetchPairData :
    UniswapToken -> UniswapToken -> string -> W -> result UniswapPair * W;
  on_getNonce : string -> W -> result Z * W;
  on_commitNonce : string -> Z -> W -> result unit * W;
  on_contractCall :
    Contract -> string -> list Arg -> JsObject -> W ->
    result ContractTransaction * W
}.
Arguments on_fetchPairData {W} _.
Arguments on_getNonce {W} _.
Arguments on_commitNonce {W} _.
Arguments on_contractCall {W} _.

Record Run (A W : Type) : Type := mkRun {
  trace : list Event;
  outcome : result A;
  world : W
}.
Arguments mkRun {A W} trace outcome world.
Arguments trace {A W} _.
Arguments outcome {A W} _.
Arguments world {A W} _.

Definition after {A W} (ev : Event) (r : Run A W) : Run A W :=
  mkRun (ev :: trace r) (outcome r) (world r).

Fixpoint exec {A W} (H : Handlers W) (p : Prog A) (w : W) : Run A W :=
  match p with
  | Return a => mkRun [] (Ok a) w
  | Raise e => mkRun [] (Throw e) w
  | LoggerInfo m k => after (Logged m) (exec H k w)
  | FetchPairData a b pr k =>
      match on_fetchPairData H a b pr w with
      | (Ok pr', w') => after (Fetched a b pr (Ok pr')) (exec H (k pr') w')
      | (Throw e, w') => mkRun [Fetched a b pr (Throw e)] (Throw e) w'
      end
  | GetNonce addr k =>
      match on_getNonce H addr w with
      | (Ok n, w') => after (NonceRequested addr (Ok n)) (exec H (k n) w')
      | (Throw e, w') => mkRun [NonceRequested addr (Throw e)] (Throw e) w'
      end
  | CommitNonce addr n k =>
      match on_commitNonce H addr n w with
      | (Ok u, w') => after (NonceCommitted addr n (Ok u)) (exec H k w')
      | (Throw e, w') => mkRun [NonceCommitted addr n (Throw e)] (Throw e) w'
      end
  | ContractCall c m a o k =>
      match on_contractCall H c m a o w with
      | (Ok tx, w') => after (Submitted c m a o (Ok tx)) (exec H (k tx) w')
      | (Throw e, w') => mkRun [Submitted c m a o (Throw e)] (Throw e) w'
      end
  end.

(** ** Quoting and execution *)

Section Trading.
Context (E : Env).

(** Lines 220-224 and 270-274: [!trades || trades.length === 0] guards the
    read of [trades[0]]. *)
Definition firstTrade (trades : option (list UniswapTrade)) (noTrade : Exn)
  : Prog UniswapTrade :=
  match trades with
  | None => Raise noTrade
  | Some [] => Raise noTrade
  | Some (t0 :: _) => Return t0
  end.

(** Lines 194-234. *)
Definition estimateSellTrade (this : Defira)
    (baseToken quoteToken : UniswapToken) (amount : Z)
    (allowedSlippage : option string) : Prog ExpectedTrade :=
  let* nativeTokenAmount := lift (newUniswapTokenAmount E baseToken amount) in
  LoggerInfo
    (LogText ("Fetching pair data for " +:+ address baseToken +:+ "-" +:+
              address quoteToken +:+ "."))
    (FetchPairData quoteToken baseToken (harmony this) (fun pair =>
     let* trades :=
       lift (bestTradeExactIn E [pair] nativeTokenAmount quoteToken
                              (mkBestTradeOptions 1)) in
     let* trades0 :=
       firstTrade trades
         (UniswapishPriceError
            ("priceSwapIn: no trade pair found for " +:+
             template_token baseToken +:+ " to " +:+
             template_token quoteToken +:+ ".")) in
     let* price := lift (executionPrice_toFixed6 E trades0) in
     LoggerInfo
       (LogText ("Best trade for " +:+ address baseToken +:+ "-" +:+
                 address quoteToken +:+ ": " +:+ price +:+
                 template_opt (name baseToken) +:+ "."))
       (let* tolerance := lift (getAllowedSlippage E allowedSlippage) in
        let* expectedAmount := lift (minimumAmountOut E trades0 tolerance) in
        Return (mkExpectedTrade trades0 expectedAmount)))).

(** Lines 246-285. *)
Definition estimateBuyTrade (this : Defira)
    (quoteToken baseToken : UniswapToken) (amount : Z)
    (allowedSlippage : option string) : Prog ExpectedTrade :=
  let* nativeTokenAmount := lift (newUniswapTokenAmount E baseToken amount) in
  LoggerInfo
    (LogText ("Fetching pair data for " +:+ address quoteToken +:+ "-" +:+
              address baseToken +:+ "."))
    (FetchPairData quoteToken baseToken (harmony this) (fun pair =>
     let* trades :=
       lift (bestTradeExactOut E [pair] quoteToken nativeTokenAmount
                               (mkBestTradeOptions 1)) in
     let* trades0 :=
       firstTrade trades
         (UniswapishPriceError
            ("priceSwapOut: no trade pair found for " +:+
             address quoteToken +:+ " to " +:+
             address baseToken +:+ ".")) in
     let* price := lift (executionPrice_invert_toFixed6 E trades0) in
     LoggerInfo
       (LogText ("Best trade for " +:+ address quoteToken +:+ "-" +:+
                 address baseToken +:+ ": " +:+ price +:+ " " +:+
                 template_opt (name baseToken) +:+ "."))
       (let* tolerance := lift (getAllowedSlippage E allowedSlippage) in
        let* expectedAmount := lift (maximumAmountIn E trades0 tolerance) in
        Return (mkExpectedTrade trades0 expectedAmount)))).

(** Lines 326-332: the overrides of the fee-per-gas submission. *)
Definition feeOverrides (gasLimit : number) (value : string) (nonce : Z)
    (maxFeePerGas maxPriorityFeePerGas : option Z) : JsObject :=
  [ ("gasLimit", JString (toFixed0 gasLimit));
    ("value", JString value);
    ("nonce", JNumber nonce);
    ("maxFeePerGas", js_big maxFeePerGas);
    ("maxPriorityFeePerGas", js_big maxPriorityFeePerGas) ].

(** Lines 334-339: the overrides of the gas-price submission. *)
Definition gasPriceOverrides (gasPrice gasLimit : number) (value : string)
    (nonce : Z) : JsObject :=
  [ ("gasPrice", JString (toFixed0 (times_1e9 gasPrice)));
    ("gasLimit", JString (toFixed0 gasLimit));
    ("value", JString value);
    ("nonce", JNumber nonce) ].

(** [x !== undefined] for an optional argument. *)
Definition is_defined {A} (x : option A) : bool :=
  match x with Some _ => true | None => false end.

(** Line 325. *)
Definition feeBranch (maxFeePerGas maxPriorityFeePerGas : option Z) : bool :=
  is_defined maxFeePerGas || is_defined maxPriorityFeePerGas.

(** Lines 301-345. *)
Definition executeTrade (this : Defira) (wallet : Wallet)
    (trade : UniswapTrade) (gasPrice : number) (defiraRouter : string)
    (ttl : Z) (abi : ContractInterface) (gasLimit : number)
    (nonce : option Z) (maxFeePerGas maxPriorityFeePerGas : option Z)
    (allowedSlippage : option string) : Prog ContractTransaction :=
  let* tolerance := lift (getAllowedSlippage E allowedSlippage) in
  let* result :=
    lift (swapCallParameters E trade
            (mkTradeOptions ttl (wallet_address wallet) tolerance)) in
  let* contract := lift (newContract E defiraRouter abi wallet) in
  let* nonce :=
    match nonce with
    | None => GetNonce (wallet_address wallet) Return
    | Some n => Return n
    end in
  let* tx :=
    if feeBranch maxFeePerGas maxPriorityFeePerGas then
      ContractCall contract (methodName result) (args result)
        (feeOverrides gasLimit (value result) nonce
                      maxFeePerGas maxPriorityFeePerGas)
        Return
    else
      ContractCall contract (methodName result) (args result)
        (gasPriceOverrides gasPrice gasLimit (value result) nonce)
        Return in
  LoggerInfo (LogTx tx)
    (CommitNonce (wallet_address wallet) nonce (Return tx)).
End Trading.

(** ** Reading a trace *)

(** The addresses for which a nonce was requested, in order. *)
Definition nonce_requests (t : list Event) : list string :=
  flat_map (fun ev => match ev with
                      | NonceRequested addr _ => [addr]
                      | _ => []
                      end) t.

(** The nonces the nonce manager handed out. *)
Definition nonces_acquired (t : list Event) : list (string * Z) :=
  flat_map (fun ev => match ev with
                      | NonceRequested addr (Ok n) => [(addr, n)]
                      | _ => []
                      end) t.

(** The calls of [commitNonce], whatever they answered. *)
Definition commits (t : list Event) : list (string * Z) :=
  flat_map (fun ev => match ev with
                      | NonceCommitted addr n _ => [(addr, n)]
                      | _ => []
                      end) t.

(** The overrides of the contract calls made. *)
Definition submitted_overrides (t : list Event) : list JsObject :=
  flat_map (fun ev => match ev with
                      | Submitted _ _ _ o _ => [o]
                      | _ => []
                      end) t.

Definition is_accepted_submission (ev : Event) : bool :=
  match ev with
  | Submitted _ _ _ _ (Ok _) => true
  | _ => false
  end.

(** Some contract call of the trace was accepted. *)
Definition submission_succeeded (t : list Event) : bool :=
  existsb is_accepted_submission t.

(** Every [commitNonce] of the trace comes after an accepted contract call:
    [seen] tells whether one was met already. *)
Fixpoint commits_follow_success (seen : bool) (t : list Event) : bool :=
  match t with
  | [] => true
  | NonceCommitted _ _ _ :: rest => seen && commits_follow_success seen rest
  | ev :: rest =>
      commits_follow_success (seen || is_accepted_submission ev) rest
  end.

(** ** A concrete environment

    Used to run the model on examples; the properties below are proved for
    every environment, every handler and every world. *)

Module Sample.

Definition digit_of (c : ascii) : option Z :=
  let n := Z.of_nat (nat_of_ascii c) in
  if (48 <=? n) && (n <=? 57) then Some (n - 48) else None.

Fixpoint decimal_from (acc : Z) (s : string) : option Z :=
  match s with
  | EmptyString => Some acc
  | String c s' =>
      match digit_of c with
      | Some d => decimal_from (10 * acc + d) s'
      | None => None
      end
  end.

(** Non-empty runs of decimal digits. *)
Definition decimal (s : string) : option Z :=
  match s with
  | EmptyString => None
  | _ => decimal_from 0 s
  end.

Definition bigint (x : option string) : result Z :=
  match x with
  | None => Throw (Rejected "TypeError")
  | Some s =>
      match decimal s with
      | Some z => Ok z
      | None => Throw (Rejected "SyntaxError")
      end
  end.

(** digits, a slash, digits *)
Definition fraction_groups (s : string)
  : option (option string * option string) :=
  match split "/" s with
  | [n; d] =>
      match decimal n, decimal d with
      | Some _, Some _ => Some (Some n, Some d)
      | _, _ => None
      end
  | _ => None
  end.

Definition is_fraction (s : string) : bool :=
  match fraction_groups s with Some _ => true | None => false end.

(** One pool, constant product, 0.3% fee. *)
Definition reserve_of (pair : UniswapPair) (t : UniswapToken) : Z :=
  if String.eqb (address (ta_token (reserve0 pair))) (address t)
  then ta_raw (reserve0 pair)
  else ta_raw (reserve1 pair).

Definition amount_out (rin rout amountIn : Z) : Z :=
  (amountIn * 997 * rout) / (rin * 1000 + amountIn * 997).

Definition amount_in (rin rout amountOut : Z) : Z :=
  (rin * amountOut * 1000) / ((rout - amountOut) * 997) + 1.

Definition best_in (pairs : list UniswapPair) (amountIn : UniswapTokenAmount)
    (out : UniswapToken) (o : BestTradeOptions)
  : result (option (list UniswapTrade)) :=
  match pairs with
  | [p] =>
      let quote :=
        amount_out (reserve_of p (ta_token amountIn)) (reserve_of p out)
                   (ta_raw amountIn) in
      if 0 <? quote then
        Ok (Some [mkTrade pairs EXACT_INPUT amountIn (mkTokenAmount out quote)])
      else Ok (Some [])
  | _ => Throw (Rejected "PAIRS")
  end.

Definition best_out (pairs : list UniswapPair) (inp : UniswapToken)
    (amountOut : UniswapTokenAmount) (o : BestTradeOptions)
  : result (option (list UniswapTrade)) :=
  match pairs with
  | [p] =>
      let rin := reserve_of p inp in
      let rout := reserve_of p (ta_token amountOut) in
      if (0 <? rin) && (ta_raw amountOut <? rout) then
        Ok (Some [mkTrade pairs EXACT_OUTPUT
                    (mkTokenAmount inp (amount_in rin rout (ta_raw amountOut)))
                    amountOut])
      else Ok (Some [])
  | _ => Throw (Rejected "PAIRS")
  end.

Definition min_out (t : UniswapTrade) (tol : UniswapPercent)
  : result UniswapTokenAmount :=
  if (numerator tol <? 0) || (denominator tol <=? 0) then
    Throw (Rejected "SLIPPAGE")
  else
    Ok (mkTokenAmount (ta_token (outputAmount t))
          (ta_raw (outputAmount t) * denominator tol
           / (denominator tol + numerator tol))).

Definition max_in (t : UniswapTrade) (tol : UniswapPercent)
  : result UniswapTokenAmount :=
  if (numerator tol <? 0) || (denominator tol <=? 0) then
    Throw (Rejected "SLIPPAGE")
  else
    Ok (mkTokenAmount (ta_token (inputAmount t))
          (ta_raw (inputAmount t) * (denominator tol + numerator tol)
           / denominator tol)).

(** The price of a trade, output over input, and its inverse: neither
    prints when it divides by zero. *)
Definition print_price (t : UniswapTrade) : result string :=
  if ta_raw (inputAmount t) =? 0
  then Throw (Rejected "[big.js] Division by zero")
  else Ok "0.010000".

Definition print_inverted_price (t : UniswapTrade) : result string :=
  if ta_raw (outputAmount t) =? 0
  then Throw (Rejected "[big.js] Division by zero")
  else Ok "100.000000".

Definition call_parameters (t : UniswapTrade) (o : TradeOptions)
  : result SwapParameters :=
  if opt_ttl o <=? 0 then Throw (Rejected "TTL")
  else
    Ok (mkSwapParameters
          match tradeType t with
          | EXACT_INPUT => "swapExactTokensForTokens"
          | EXACT_OUTPUT => "swapTokensForExactTokens"
          end
          [ArgString (opt_recipient o)] "0x0").

Definition env (allowedSlippage : string) : Env :=
  {| isFractionString := is_fraction;
     percentRegexp_match := fraction_groups;
     config_allowedSlippage := allowedSlippage;
     config_ttl := 300;
     config_gasLimit := 200000;
     config_routerAddress := fun network => "0xrouter-" +:+ network;
     routerAbi_abi := ["function factory() view returns (address)"];
     SERVICE_UNITIALIZED_ERROR_CODE := 1003;
     SERVICE_UNITIALIZED_ERROR_MESSAGE :=
       fun chain => chain +:+ " was called before being initialized.";
     parseBigintIsh := bigint;
     newUniswapToken := fun cid addr dec sym nm =>
       if starts_with "0x" addr
       then Ok (mkToken cid addr dec (Some sym) (Some nm))
       else Throw (Rejected (addr +:+ " is not a valid address."));
     newUniswapTokenAmount := fun token amount =>
       if (0 <=? amount) && (amount <? 2 ^ 256)
       then Ok (mkTokenAmount token amount)
       else Throw (Rejected "not a uint256");
     newContract := fun addr abi signer => Ok (mkContract addr abi signer);
     bestTradeExactIn := best_in;
     bestTradeExactOut := best_out;
     minimumAmountOut := min_out;
     maximumAmountIn := max_in;
     executionPrice_toFixed6 := print_price;
     executionPrice_invert_toFixed6 := print_inverted_price;
     swapCallParameters := call_parameters |}.

Definition chain_ids (network : string) : Z := 1666600000.

(** A world: the next nonce per address, whether the node accepts
    submissions, and the pool the fetcher finds. *)
Record World : Type := mkWorld {
  committed : gmap string Z;
  node_up : bool;
  pool : option UniswapPair
}.

Definition handlers : Handlers World :=
  {| on_fetchPairData := fun a b pr w =>
       (match pool w with
        | Some p => Ok p
        | None => Throw (Rejected "no pool")
        end, w);
     on_getNonce := fun addr w =>
       (Ok (default 0 (committed w !! addr) + 1), w);
     on_commitNonce := fun addr n w =>
       (Ok tt, mkWorld (<[addr := n]> (committed w)) (node_up w) (pool w));
     on_contractCall := fun c m a o w =>
       (if node_up w then Ok (mkContractTransaction "0xhash")
        else Throw (Rejected "node down"), w) |}.

Definition WONE : UniswapToken :=
  mkToken 1666600000 "0xcF664087a5bB0237a0BAd6742852ec6c8d69A27a" 18
          (Some "WONE") (Some "Wrapped ONE").
Definition USDC : UniswapToken :=
  mkToken 1666600000 "0x985458E523dB3d53125813eD68c274899e9DfAb4" 6
          (Some "1USDC") (Some "USD Coin").

Definition wone_usdc : UniswapPair :=
  mkPair (mkTokenAmount WONE 5000000000000000000000000)
         (mkTokenAmount USDC 50000000000).

(** A pool without liquidity on the output side. *)
Definition dry_pool : UniswapPair :=
  mkPair (mkTokenAmount WONE 5000000000000000000000000)
         (mkTokenAmount USDC 0).

Definition world0 : World := mkWorld ∅ true (Some wone_usdc).
Definition world_down : World := mkWorld ∅ false (Some wone_usdc).
Definition world_dry : World := mkWorld ∅ true (Some dry_pool).

Definition alice : Wallet := mkWallet "0xA11CE".

Definition connector (E : Env) : Defira :=
  newDefira E chain_ids "harmony" "mainnet".

Definition a_trade : UniswapTrade :=
  mkTrade [wone_usdc] EXACT_INPUT (mkTokenAmount WONE 1000)
          (mkTokenAmount USDC 9).

Definition stored_tokens : list TokenInfo :=
  [ mkTokenInfo "0xcF664087a5bB0237a0BAd6742852ec6c8d69A27a" 18 "WONE"
                "Wrapped ONE";
    mkTokenInfo "0x985458E523dB3d53125813eD68c274899e9DfAb4" 6 "1USDC"
                "USD Coin" ].

(** The chain client before and after it has loaded. *)
Definition client_starting : Harmony := mkHarmony false stored_tokens.
Definition client_ready : Harmony := mkHarmony true stored_tokens.

End Sample.

(** ** The factory address *)

(** What [new Contract(address, abi, provider)] holds: a contract that is
    read through a provider. *)
Record ReadContract : Type := mkReadContract {
  rc_address : string;
  rc_interface : ContractInterface;
  rc_provider : string
}.

(** What a call of [factory()] leaves behind: its answer ([None] is [null]
    or [undefined]), the connector, the contracts whose [factory()] was
    awaited, and the world. *)
Record FactoryRun (W : Type) : Type := mkFactoryRun {
  fr_outcome : result (option string);
  fr_this : Defira;
  fr_queried : list ReadContract;
  fr_world : W
}.
Arguments mkFactoryRun {W} fr_outcome fr_this fr_queried fr_world.
Arguments fr_outcome {W} _.
Arguments fr_this {W} _.
Arguments fr_queried {W} _.
Arguments fr_world {W} _.

(** [!x] for a string that may be [null]: the empty string is falsy too. *)
Definition falsy (x : option string) : bool :=
  match x with
  | None => true
  | Some s => String.eqb s ""
  end.

Definition with_factory (this : Defira) (f : option string) : Defira :=
  {| harmony := harmony this;
     _chain := _chain this;
     _router := _router this;
     _factory := f;
     _routerAbi := _routerAbi this;
     _gasLimit := _gasLimit this;
     _ttl := _ttl this;
     chainId := chainId this;
     tokenList := tokenList this;
     _ready := _ready this |}.

Section Factory.
Context {W : Type}.
(** [new Contract(address, abi, provider)] and the awaited
    [routerContract.factory()]. *)
Context (newReadContract :
           string -> ContractInterface -> string -> result ReadContract).
Context (on_factory : ReadContract -> W -> result (option string) * W).

(** Lines 135-141. *)
Definition factory (this : Defira) (w : W) : FactoryRun W :=
  if falsy (_factory this) then
    match newReadContract (router this) (routerAbi this) (harmony this) with
    | Throw e => mkFactoryRun (Throw e) this [] w
    | Ok routerContract =>
        match on_factory routerContract w with
        | (Ok answer, w') =>
            mkFactoryRun (Ok answer) (with_factory this answer)
                         [routerContract] w'
        | (Throw e, w') => mkFactoryRun (Throw e) this [routerContract] w'
        end
    end
  else mkFactoryRun (Ok (_factory this)) this [] w.
End Factory.

(** ** More readings of the model *)

(** The last entry of a stored token list that has the address: the one
    whose token the loop of [init] leaves in the token list. *)
Fixpoint last_entry (addr : string) (tokens : list TokenInfo)
  : option TokenInfo :=
  match tokens with
  | [] => None
  | token :: rest =>
      match last_entry addr rest with
      | Some later => Some later
      | None => if String.eqb (ti_address token) addr then Some token else None
      end
  end.

(** The connectors of a process are the ones allocated so far. *)
Definition heap_bounded (σ : Process) : Prop :=
  forall l d, heap σ !! l = Some d -> (l < next_loc σ)%nat.

(** The keys a sequence of operations asks [getInstance] for. *)
Definition requested_keys (ops : list Op) : list string :=
  flat_map (fun op => match op with
                      | CallGetInstance chain network => [chain +:+ network]
                      | CallInit _ _ => []
                      end) ops.

(** The pair fetches of a trace: the two tokens and the provider. *)
Definition fetches (t : list Event)
  : list (UniswapToken * UniswapToken * string) :=
  flat_map (fun ev => match ev with
                      | Fetched a b provider _ => [(a, b, provider)]
                      | _ => []
                      end) t.

Definition is_acknowledged_commit (ev : Event) : bool :=
  match ev with
  | NonceCommitted _ _ (Ok _) => true
  | _ => false
  end.

(** ** More concrete worlds *)

Module Scenario.

(** A nonce manager that hands out nonces but refuses every commit. *)
Definition handlers_refusing_commit : Handlers Sample.World :=
  {| on_fetchPairData := on_fetchPairData Sample.handlers;
     on_getNonce := on_getNonce Sample.handlers;
     on_commitNonce := fun addr n w => (Throw (Rejected "commit refused"), w);
     on_contractCall := on_contractCall Sample.handlers |}.

(** A nonce manager that is down. *)
Definition handlers_without_nonces : Handlers Sample.World :=
  {| on_fetchPairData := on_fetchPairData Sample.handlers;
     on_getNonce := fun addr w => (Throw (Rejected "nonce manager down"), w);
     on_commitNonce := on_commitNonce Sample.handlers;
     on_contractCall := on_contractCall Sample.handlers |}.

Definition world_without_pool : Sample.World := Sample.mkWorld ∅ true None.

Definition read_contract (addr : string) (abi : ContractInterface)
    (provider : string) : result ReadContract :=
  Ok (mkReadContract addr abi provider).

(** A router that answers its factory; the world counts the queries. *)
Definition router_answers (c : ReadContract) (queries : nat)
  : result (option string) * nat :=
  (Ok (Some "0xfactory"), S queries).

(** A router that answers the empty string. *)
Definition router_answers_empty (c : ReadContract) (queries : nat)
  : result (option string) * nat :=
  (Ok (Some ""), S queries).

(** A stored list that names one address twice and ends with an address
    the token constructor refuses. *)
Definition tokens_with_duplicate : list TokenInfo :=
  [ mkTokenInfo "0xaa" 18 "OLD" "Old name";
    mkTokenInfo "0xbb" 6 "B" "Token B";
    mkTokenInfo "0xaa" 18 "NEW" "New name" ].

Definition tokens_with_bad_address : list TokenInfo :=
  [ mkTokenInfo "0xaa" 18 "A" "Token A";
    mkTokenInfo "bogus" 6 "B" "Token B";
    mkTokenInfo "0xcc" 6 "C" "Token C" ].

End Scenario.

(** ** Proof automation *)

(** Case analysis on the answer of the handler that the run is waiting
    for. *)
Ltac next_answer :=
  match goal with
  | |- context [on_getNonce ?H ?a ?w] =>
      destruct (on_getNonce H a w) as [[?n|?e] ?w]
  | |- context [on_contractCall ?H ?c ?m ?a ?o ?w] =>
      destruct (on_contractCall H c m a o w) as [[?tx|?e] ?w]
  | |- context [on_commitNonce ?H ?a ?n ?w] =>
      destruct (on_commitNonce H a n w) as [[?u|?e] ?w]
  | |- context [on_fetchPairData ?H ?a ?b ?p ?w] =>
      destruct (on_fetchPairData H a b p w) as [[?pair|?e] ?w] eqn:?Hfetch
  end; simpl.

Ltac run_all := simpl; repeat next_answer.

(** * Properties *)

(** ** Slippage resolution *)

Lemma split_without_separator (sep : ascii) (s : string) :
  occurs sep s = false -> split sep s = [s].
Proof.
  induction s as [|c s IH]; simpl; [reflexivity|].
  intros Hocc. apply orb_false_iff in Hocc as [Hc Hs].
  rewrite Hc, (IH Hs). reflexivity.
Qed.

Lemma split_at_first_separator (sep : ascii) (a b : string) :
  occurs sep a = false ->
  split sep (a +:+ String sep b) = a :: split sep b.
Proof.
  induction a as [|c a IH]; simpl.
  - intros _. rewrite Ascii.eqb_refl. reflexivity.
  - intros Hocc. apply orb_false_iff in Hocc as [Hc Ha].
    rewrite Hc, (IH Ha). reflexivity.
Qed.

Lemma split_fraction (N D : string) :
  occurs "/" N = false -> occurs "/" D = false ->
  split "/" (N +:+ "/" +:+ D) = [N; D].
Proof.
  intros HN HD.
  change (N +:+ "/" +:+ D) with (N +:+ String "/" D).
  rewrite (split_at_first_separator _ _ _ HN).
  rewrite (split_without_separator _ _ HD). reflexivity.
Qed.

(** C3.  An override "N/D" that the validator accepts, with N and D numerals
    of values n and d, resolves to the tolerance whose numerator is n and
    whose denominator is d, whatever the configured default is.  (The
    constructor does not inspect d, so the equation needs no D ≠ 0.) *)
Theorem getAllowedSlippage_fraction_override
    (E : Env) (configured N D : string) (n d : Z) :
  occurs "/" N = false ->
  occurs "/" D = false ->
  isFractionString E (N +:+ "/" +:+ D) = true ->
  parseBigintIsh E (Some N) = Ok n ->
  parseBigintIsh E (Some D) = Ok d ->
  getAllowedSlippage (with_allowedSlippage configured E)
                     (Some (N +:+ "/" +:+ D))
  = Ok (mkPercent n d).
Proof.
  intros HN HD Hvalid Hn Hd.
  unfold getAllowedSlippage. simpl isFractionString. rewrite Hvalid.
  rewrite (split_fraction N D HN HD). simpl.
  unfold newUniswapPercent. simpl parseBigintIsh.
  rewrite Hn, Hd. reflexivity.
Qed.

Lemma getAllowedSlippage_fraction_override_witness :
  getAllowedSlippage (with_allowedSlippage "not a percent" (Sample.env "2/100"))
                     (Some "1/10")
  = Ok (mkPercent 1 10).
Proof.
  apply (getAllowedSlippage_fraction_override
           (Sample.env "2/100") "not a percent" "1" "10" 1 10);
    reflexivity.
Defined.

(** C4.  When the configured default does not match the percent pattern, a
    call without an override, or with an override the validator refuses,
    throws the malformed-configuration error: no tolerance is returned. *)
Theorem getAllowedSlippage_malformed_config
    (E : Env) (override : option string) :
  percentRegexp_match E (config_allowedSlippage E) = None ->
  (override = None \/
   exists s, override = Some s /\ isFractionString E s = false) ->
  getAllowedSlippage E override = Throw malformed_percent.
Proof.
  intros Hcfg [-> | (s & -> & Hs)]; unfold getAllowedSlippage.
  - unfold configuredSlippage. rewrite Hcfg. reflexivity.
  - rewrite Hs. unfold configuredSlippage. rewrite Hcfg. reflexivity.
Qed.

Lemma getAllowedSlippage_malformed_config_witness :
  getAllowedSlippage (Sample.env "2%") None = Throw malformed_percent /\
  getAllowedSlippage (Sample.env "2%") (Some "abc") = Throw malformed_percent.
Proof.
  split.
  - apply (getAllowedSlippage_malformed_config (Sample.env "2%") None);
      [reflexivity | left; reflexivity].
  - apply (getAllowedSlippage_malformed_config (Sample.env "2%") (Some "abc"));
      [reflexivity | right; exists "abc"; split; reflexivity].
Defined.

(** ** Initialisation and the token list *)

Section ConnectorFacts.
Context (E : Env) (harmony_chainId : string -> Z).

Lemma init_ready_monotone (hmy : Harmony) (this : Defira) :
  ready (snd (init E hmy this)) = ready this || is_ok (fst (init E hmy this)).
Proof.
  unfold init, ready.
  destruct (String.eqb (_chain this) "harmony" && negb (hmy_ready hmy));
    simpl; [rewrite orb_false_r; reflexivity|].
  destruct (storeTokens E (chainId this) (storedTokenList hmy)
                        (tokenList this)) as [[u|e] tl]; simpl;
    [rewrite orb_true_r | rewrite orb_false_r]; reflexivity.
Qed.

Lemma inits_ready (calls : list Harmony) (this : Defira) :
  ready (inits E calls this) = ready this || some_init_completed E calls this.
Proof.
  revert this. induction calls as [|hmy calls IH]; intros this.
  - simpl. rewrite orb_false_r. reflexivity.
  - unfold inits in *. simpl. rewrite IH, init_ready_monotone.
    rewrite orb_assoc. reflexivity.
Qed.

Lemma storeTokens_other (cid : Z) (tokens : list TokenInfo)
    (tl : gmap string UniswapToken) (addr : string) :
  addr ∉ map ti_address tokens ->
  snd (storeTokens E cid tokens tl) !! addr = tl !! addr.
Proof.
  revert tl. induction tokens as [|token tokens IH]; intros tl Hnot; simpl.
  - reflexivity.
  - simpl in Hnot. apply not_elem_of_cons in Hnot as [Hne Hrest].
    destruct (newUniswapToken E cid _ _ _ _) as [t|e]; [|reflexivity].
    rewrite (IH _ Hrest). apply lookup_insert_ne. congruence.
Qed.

Lemma init_tokenList_other (hmy : Harmony) (this : Defira) (addr : string) :
  addr ∉ map ti_address (storedTokenList hmy) ->
  tokenList (snd (init E hmy this)) !! addr = tokenList this !! addr.
Proof.
  intros Hnot. unfold init.
  destruct (String.eqb (_chain this) "harmony" && negb (hmy_ready hmy));
    simpl; [reflexivity|].
  pose proof (storeTokens_other (chainId this) (storedTokenList hmy)
                (tokenList this) addr Hnot) as Hkeep.
  destruct (storeTokens E (chainId this) (storedTokenList hmy)
                        (tokenList this)) as [[u|e] tl]; exact Hkeep.
Qed.

Lemma inits_tokenList_other (calls : list Harmony) (this : Defira)
    (addr : string) :
  Forall (fun hmy => addr ∉ map ti_address (storedTokenList hmy)) calls ->
  tokenList (inits E calls this) !! addr = tokenList this !! addr.
Proof.
  revert this. induction calls as [|hmy calls IH]; intros this Hall.
  - reflexivity.
  - apply Forall_cons in Hall as [Hhd Htl].
    unfold inits in *. simpl. rewrite (IH _ Htl).
    apply init_tokenList_other, Hhd.
Qed.

Lemma init_ignores_ready_elsewhere (hmy : Harmony) (this : Defira)
    (isReady : bool) :
  _chain this <> "harmony" ->
  init E hmy this = init E (mkHarmony isReady (storedTokenList hmy)) this.
Proof.
  intros Hchain. unfold init. apply String.eqb_neq in Hchain.
  rewrite Hchain. reflexivity.
Qed.

(** C6, as the code has it.  A connector of the chain "harmony" whose chain
    client is not ready fails [init] with the [InitializationError] of the
    fixed code and is left as it was (token list included); a connector of
    another chain name is not put to the readiness test: its [init] does
    what it would do with a ready client and goes on to the client's stored
    tokens; and, for every connector, [ready()] after a sequence of [init]
    calls is true exactly when it was true before or one of the calls
    completed, so it is false on a new connector until an [init] completes
    and true afterwards. *)
Theorem init_requires_ready_chain
    (chain network : string) (this : Defira) (hmy : Harmony)
    (calls : list Harmony) :
  (_chain this = "harmony" -> hmy_ready hmy = false ->
   init E hmy this = (Throw (uninitialized E), this)) /\
  (_chain this <> "harmony" ->
   init E hmy this = init E (mkHarmony true (storedTokenList hmy)) this) /\
  uninitialized E =
    InitializationError (SERVICE_UNITIALIZED_ERROR_MESSAGE E "HMY")
                        (SERVICE_UNITIALIZED_ERROR_CODE E) /\
  ready (newDefira E harmony_chainId chain network) = false /\
  ready (inits E calls this) = ready this || some_init_completed E calls this.
Proof.
  split; [|split; [|split; [|split]]].
  - intros Hchain Hready. unfold init. rewrite Hchain, Hready. reflexivity.
  - apply init_ignores_ready_elsewhere.
  - reflexivity.
  - reflexivity.
  - apply inits_ready.
Qed.

Lemma inits_prototype_kept (calls : list Harmony) (this : Defira) :
  Forall (fun hmy => "__proto__" ∉ map ti_address (storedTokenList hmy))
         calls ->
  tokenList (inits E calls this) !! "__proto__" = tokenList this !! "__proto__".
Proof. apply inits_tokenList_other. Qed.

(** C9, as the code has it.  [getTokenByAddress] is a read of a plain
    object and has no failure in its type.  On a new connector, and after any
    sequence of [init] calls for an address that was not stored before and is
    not the address of a stored token of the chain client (no stored token
    having the address "__proto__", which would replace the prototype of the
    list), it answers [undefined] unless the address is a name that every
    object inherits; for such a name it answers the member of
    [Object.prototype]. *)
Theorem getTokenByAddress_absent
    (chain network addr : string) (this : Defira) (calls : list Harmony) :
  getTokenByAddress (newDefira E harmony_chainId chain network) addr
  = (if inherited addr then ObjectMember addr else NoToken) /\
  (tokenList this !! addr = None ->
   tokenList this !! "__proto__" = None ->
   Forall (fun hmy => addr ∉ map ti_address (storedTokenList hmy)) calls ->
   Forall (fun hmy => "__proto__" ∉ map ti_address (storedTokenList hmy))
          calls ->
   getTokenByAddress (inits E calls this) addr
   = (if inherited addr then ObjectMember addr else NoToken)).
Proof.
  split.
  - unfold getTokenByAddress, newDefira. simpl. rewrite !lookup_empty.
    reflexivity.
  - intros Habsent Hproto Hall Hnoproto. unfold getTokenByAddress.
    rewrite (inits_tokenList_other calls this addr Hall), Habsent.
    rewrite (inits_prototype_kept calls this Hnoproto), Hproto.
    reflexivity.
Qed.
End ConnectorFacts.

Lemma init_requires_ready_chain_witness :
  let E := Sample.env "1/100" in
  let this := Sample.connector E in
  init E Sample.client_starting this = (Throw (uninitialized E), this) /\
  ready (inits E [Sample.client_starting; Sample.client_ready] this) = true /\
  ready (inits E [Sample.client_starting; Sample.client_starting] this) = false.
Proof.
  intros E this.
  pose proof (init_requires_ready_chain E Sample.chain_ids "harmony" "mainnet"
                this Sample.client_starting
                [Sample.client_starting; Sample.client_ready])
    as (Hthrow & _ & _ & _ & Hready).
  pose proof (init_requires_ready_chain E Sample.chain_ids "harmony" "mainnet"
                this Sample.client_starting
                [Sample.client_starting; Sample.client_starting])
    as (_ & _ & _ & _ & Hnot).
  split; [|split].
  - apply Hthrow; reflexivity.
  - rewrite Hready. reflexivity.
  - rewrite Hnot. reflexivity.
Defined.

(** C6 as stated fails: a connector created for another chain name is not
    put to the readiness test, so [init] completes while the client reports
    itself not ready, fills the token list from the client's stored tokens
    and turns [ready()] on. *)
Lemma init_unready_client_other_chain :
  let E := Sample.env "1/100" in
  let this := newDefira E Sample.chain_ids "ethereum" "mainnet" in
  let after_init := snd (init E Sample.client_starting this) in
  hmy_ready Sample.client_starting = false /\
  fst (init E Sample.client_starting this) = Ok tt /\
  ready after_init = true /\
  getTokenByAddress after_init "0x985458E523dB3d53125813eD68c274899e9DfAb4"
  = Token Sample.USDC.
Proof. vm_compute. repeat split. Qed.

Lemma getTokenByAddress_absent_witness :
  let E := Sample.env "1/100" in
  getTokenByAddress
    (inits E [Sample.client_ready] (Sample.connector E)) "0xdead" = NoToken.
Proof.
  intros E.
  apply (proj2 (getTokenByAddress_absent E Sample.chain_ids "harmony"
                  "mainnet" "0xdead" (Sample.connector E)
                  [Sample.client_ready]));
    try reflexivity;
    repeat constructor; simpl; intros Hin;
    repeat (apply elem_of_cons in Hin as [Hin | Hin]; [discriminate|]);
    apply elem_of_nil in Hin; exact Hin.
Defined.

(** C9 as stated fails: "constructor" is in no token list, and a new
    connector answers it with the member of [Object.prototype] of that name,
    a function, not with [undefined]. *)
Lemma getTokenByAddress_inherited_name :
  let E := Sample.env "1/100" in
  let this := Sample.connector E in
  tokenList this !! "constructor" = None /\
  getTokenByAddress this "constructor" = ObjectMember "constructor" /\
  getTokenByAddress this "constructor" <> NoToken.
Proof. vm_compute. repeat split. discriminate. Qed.

(** ** The registry *)

Lemma append_cancel_l (a b c : string) : a +:+ b = a +:+ c -> b = c.
Proof.
  induction a as [|x a IH]; simpl; intros H; [exact H|].
  injection H as H. exact (IH H).
Qed.

Section RegistryFacts.
Context (E : Env) (cid : string -> Z).

Lemma getInstance_cached (chain network : string) (σ : Process) (l : loc) :
  registry σ !! (chain +:+ network) = Some l ->
  fst (getInstance E cid chain network σ) = Some (Connector l) /\
  registry (snd (getInstance E cid chain network σ)) = registry σ /\
  heap (snd (getInstance E cid chain network σ)) = heap σ /\
  next_loc (snd (getInstance E cid chain network σ)) = next_loc σ.
Proof.
  unfold getInstance, has_key, read_key, registry.
  destruct σ as [[insts|] hp nx]; simpl; intros Hkey.
  - repeat (rewrite ?Hkey; simpl). repeat split.
  - rewrite lookup_empty in Hkey. discriminate.
Qed.

(** For a name that every object inherits and the registry does not hold,
    nothing is constructed. *)
Lemma getInstance_inherited (chain network : string) (σ : Process) :
  registry σ !! (chain +:+ network) = None ->
  inherited (chain +:+ network) = true ->
  fst (getInstance E cid chain network σ)
  = Some (ObjectPrototypeMember (chain +:+ network)) /\
  registry (snd (getInstance E cid chain network σ)) = registry σ /\
  heap (snd (getInstance E cid chain network σ)) = heap σ /\
  next_loc (snd (getInstance E cid chain network σ)) = next_loc σ.
Proof.
  unfold getInstance, has_key, read_key, registry.
  destruct σ as [[insts|] hp nx]; simpl; intros Hkey Hinh.
  - repeat (rewrite ?Hkey, ?Hinh; simpl). repeat split.
  - repeat (rewrite ?lookup_empty, ?Hinh; simpl). repeat split.
Qed.

Lemma getInstance_created (chain network : string) (σ : Process) :
  registry σ !! (chain +:+ network) = None ->
  inherited (chain +:+ network) = false ->
  fst (getInstance E cid chain network σ) = Some (Connector (next_loc σ)) /\
  registry (snd (getInstance E cid chain network σ))
  = <[chain +:+ network := next_loc σ]> (registry σ) /\
  heap (snd (getInstance E cid chain network σ))
  = <[next_loc σ := newDefira E cid chain network]> (heap σ) /\
  next_loc (snd (getInstance E cid chain network σ)) = S (next_loc σ).
Proof.
  unfold getInstance, has_key, read_key, registry.
  destruct σ as [[insts|] hp nx]; simpl; intros Hkey Hinh.
  - repeat (rewrite ?Hkey, ?Hinh, ?lookup_insert_eq; simpl). repeat split.
  - repeat (rewrite ?lookup_empty, ?Hinh, ?lookup_insert_eq; simpl).
    repeat split.
Qed.

Lemma getInstance_cases (chain network : string) (σ : Process) :
  getInstance_case chain network σ.
Proof.
  destruct (registry σ !! (chain +:+ network)) as [l|] eqn:Hown;
    [eapply case_cached; eauto|].
  destruct (inherited (chain +:+ network)) eqn:Hinh;
    [apply case_inherited | apply case_created]; assumption.
Qed.

(** The answer is what a read of the registry gives afterwards. *)
Lemma getInstance_answer (chain network : string) (σ : Process) :
  fst (getInstance E cid chain network σ)
  = read_key (registry (snd (getInstance E cid chain network σ)))
             (chain +:+ network).
Proof.
  unfold read_key.
  destruct (getInstance_cases chain network σ).
  - destruct (getInstance_cached _ _ _ _ Hown) as (-> & -> & _).
    rewrite Hown. reflexivity.
  - destruct (getInstance_inherited _ _ _ Hown Hinh) as (-> & -> & _).
    rewrite Hown, Hinh. reflexivity.
  - destruct (getInstance_created _ _ _ Hown Hinh) as (-> & -> & _).
    rewrite lookup_insert_eq. reflexivity.
Qed.

Lemma getInstance_keeps (chain network key : string) (σ : Process) (l : loc) :
  registry σ !! key = Some l ->
  registry (snd (getInstance E cid chain network σ)) !! key = Some l.
Proof.
  intros Hkey.
  destruct (getInstance_cases chain network σ).
  - destruct (getInstance_cached _ _ _ _ Hown) as (_ & -> & _). exact Hkey.
  - destruct (getInstance_inherited _ _ _ Hown Hinh) as (_ & -> & _).
    exact Hkey.
  - destruct (getInstance_created _ _ _ Hown Hinh) as (_ & -> & _).
    rewrite lookup_insert_ne; [exact Hkey|]. congruence.
Qed.

Lemma getInstance_wf (chain network : string) (σ : Process) :
  registry_wf σ -> registry_wf (snd (getInstance E cid chain network σ)).
Proof.
  intros [Hnames Halloc Hlive Hdist].
  destruct (getInstance_cases chain network σ).
  - destruct (getInstance_cached _ _ _ _ Hown) as (_ & Hreg & Hheap & Hnext).
    constructor; rewrite ?Hreg, ?Hheap, ?Hnext; assumption.
  - destruct (getInstance_inherited _ _ _ Hown Hinh)
      as (_ & Hreg & Hheap & Hnext).
    constructor; rewrite ?Hreg, ?Hheap, ?Hnext; assumption.
  - destruct (getInstance_created _ _ _ Hown Hinh)
      as (_ & Hreg & Hheap & Hnext).
    constructor; rewrite ?Hreg, ?Hheap, ?Hnext.
    + intros key l. rewrite lookup_insert.
      case_decide; intros Hl; [subst; exact Hinh | eapply Hnames, Hl].
    + intros key l. rewrite lookup_insert.
      case_decide; intros Hl.
      * injection Hl as <-. lia.
      * apply Halloc in Hl. lia.
    + intros l Hl. rewrite lookup_insert.
      case_decide; [eauto|]. apply Hlive. lia.
    + intros key1 key2 l. rewrite !lookup_insert.
      repeat case_decide; intros H1 H2; subst.
      * reflexivity.
      * injection H1 as <-. apply Halloc in H2. lia.
      * injection H2 as <-. apply Halloc in H1. lia.
      * eapply Hdist; eassumption.
Qed.

Lemma run_op_keeps (op : Op) (key : string) (σ : Process) (l : loc) :
  registry σ !! key = Some l ->
  registry (run_op E cid σ op) !! key = Some l.
Proof.
  destruct op as [chain network | this hmy]; simpl.
  - apply getInstance_keeps.
  - destruct (heap σ !! this); auto.
Qed.

Lemma run_op_wf (op : Op) (σ : Process) :
  registry_wf σ -> registry_wf (run_op E cid σ op).
Proof.
  destruct op as [chain network | this hmy]; simpl.
  - apply getInstance_wf.
  - destruct (heap σ !! this) as [d|] eqn:Hthis; [|auto].
    intros [Hnames Halloc Hlive Hdist]. constructor; simpl; auto.
    intros l Hl. rewrite lookup_insert. case_decide; [eauto | auto].
Qed.

Lemma run_ops_keeps (ops : list Op) (key : string) (σ : Process) (l : loc) :
  registry σ !! key = Some l ->
  registry (run_ops E cid ops σ) !! key = Some l.
Proof.
  revert σ. induction ops as [|op ops IH]; intros σ Hkey; [exact Hkey|].
  apply IH, run_op_keeps, Hkey.
Qed.

Lemma run_ops_wf (ops : list Op) (σ : Process) :
  registry_wf σ -> registry_wf (run_ops E cid ops σ).
Proof.
  revert σ. induction ops as [|op ops IH]; intros σ Hwf; [exact Hwf|].
  apply IH, run_op_wf, Hwf.
Qed.

Lemma boot_wf : registry_wf boot.
Proof.
  constructor; unfold boot, registry; simpl.
  - intros key l H. rewrite lookup_empty in H. discriminate.
  - intros key l H. rewrite lookup_empty in H. discriminate.
  - intros l H. lia.
  - intros key1 key2 l H. rewrite lookup_empty in H. discriminate.
Qed.

Lemma getInstance_is_Some (chain network : string) (σ : Process) :
  is_Some (fst (getInstance E cid chain network σ)).
Proof.
  destruct (getInstance_cases chain network σ).
  - destruct (getInstance_cached _ _ _ _ Hown) as (-> & _). eauto.
  - destruct (getInstance_inherited _ _ _ Hown Hinh) as (-> & _). eauto.
  - destruct (getInstance_created _ _ _ Hown Hinh) as (-> & _). eauto.
Qed.

(** A read of the registry of a well-formed process tells its key. *)
Lemma read_key_distinct (σ : Process) (key1 key2 : string) (r : Ref) :
  registry_wf σ ->
  read_key (registry σ) key1 = Some r ->
  read_key (registry σ) key2 = Some r ->
  key1 = key2.
Proof.
  intros Hwf. unfold read_key.
  destruct (registry σ !! key1) as [l1|] eqn:H1;
    destruct (registry σ !! key2) as [l2|] eqn:H2;
    repeat match goal with
           | |- context [inherited ?k] => destruct (inherited k)
           end;
    intros Hr1 Hr2; try congruence.
  assert (l1 = l2) by congruence. subst l2.
  exact (wf_distinct _ Hwf _ _ _ H1 H2).
Qed.

(** A read that gave a value gives it in every later well-formed
    registry that has kept the entries. *)
Lemma read_key_stable (σ1 σ2 : Process) (key : string) (r : Ref) :
  registry_wf σ2 ->
  (forall l, registry σ1 !! key = Some l -> registry σ2 !! key = Some l) ->
  read_key (registry σ1) key = Some r ->
  read_key (registry σ2) key = Some r.
Proof.
  intros Hwf Hgrow. unfold read_key.
  destruct (registry σ1 !! key) as [l|] eqn:H1.
  - rewrite (Hgrow l eq_refl). auto.
  - destruct (inherited key) eqn:Hinh; [|discriminate].
    destruct (registry σ2 !! key) as [l|] eqn:H2; [|auto].
    pose proof (wf_own _ Hwf _ _ H2). congruence.
Qed.

(** C8, as the code has it.  In a process that has done anything before
    ([before]) and does anything in between ([between]): a second
    [getInstance] with the same chain and network answers the very value the
    first one answered; with the same chain and another network it answers a
    different value; when the key [chain + network] is not a name that every
    object inherits, that value is a connector, allocated by then; when it is
    such a name and no connector is stored under it, nothing is constructed
    and the value is the member of [Object.prototype] of that name; and
    every entry the registry holds after the first call is still there, with
    the same connector, later on. *)
Theorem getInstance_singleton
    (before between : list Op) (chain network network' : string) :
  let σ := run_ops E cid before boot in
  let first := getInstance E cid chain network σ in
  let later := run_ops E cid between (snd first) in
  let second := getInstance E cid chain network later in
  let other := getInstance E cid chain network' later in
  (exists r, fst first = Some r /\ fst second = Some r) /\
  (inherited (chain +:+ network) = false ->
   exists l, fst first = Some (Connector l) /\
             fst second = Some (Connector l) /\
             is_Some (heap (snd second) !! l)) /\
  (inherited (chain +:+ network) = true ->
   fst first = Some (ObjectPrototypeMember (chain +:+ network)) /\
   heap (snd first) = heap σ /\ registry (snd first) = registry σ) /\
  (network <> network' ->
   exists r r', fst first = Some r /\ fst other = Some r' /\ r <> r') /\
  (forall key l, registry (snd first) !! key = Some l ->
                 registry later !! key = Some l /\
                 registry (snd second) !! key = Some l).
Proof.
  intros σ first later second other.
  assert (Hwf0 : registry_wf σ) by apply run_ops_wf, boot_wf.
  assert (Hwf1 : registry_wf (snd first)) by apply getInstance_wf, Hwf0.
  assert (Hwf2 : registry_wf later) by apply run_ops_wf, Hwf1.
  assert (Hwf3 : registry_wf (snd second)) by apply getInstance_wf, Hwf2.
  assert (Hwf4 : registry_wf (snd other)) by apply getInstance_wf, Hwf2.
  destruct (getInstance_is_Some chain network σ) as [r Hr].
  assert (Hread : read_key (registry (snd first)) (chain +:+ network)
                  = Some r).
  { rewrite <- Hr. symmetry. apply getInstance_answer. }
  assert (Hsecond : fst second = Some r).
  { subst second. rewrite getInstance_answer.
    apply (read_key_stable (snd first)); [exact Hwf3 | | exact Hread].
    intros l Hl. apply getInstance_keeps, run_ops_keeps, Hl. }
  split; [|split; [|split; [|split]]].
  - exists r. split; assumption.
  - intros Hinh.
    assert (Hl : exists l, r = Connector l /\
                           registry (snd first) !! (chain +:+ network)
                           = Some l).
    { revert Hread. unfold read_key. rewrite Hinh.
      destruct (registry (snd first) !! (chain +:+ network)) as [l|];
        [|discriminate].
      intros [= <-]. eauto. }
    destruct Hl as (l & -> & Hreg1).
    exists l. split; [exact Hr|]. split; [exact Hsecond|].
    assert (Hreg3 : registry (snd second) !! (chain +:+ network) = Some l)
      by (apply getInstance_keeps, run_ops_keeps, Hreg1).
    apply (wf_live _ Hwf3). eapply (wf_allocated _ Hwf3), Hreg3.
  - intros Hinh. subst first.
    destruct (getInstance_cases chain network σ).
    + pose proof (wf_own _ Hwf0 _ _ Hown). congruence.
    + destruct (getInstance_inherited _ _ _ Hown Hinh0)
        as (-> & -> & -> & _). auto.
    + congruence.
  - intros Hne.
    destruct (getInstance_is_Some chain network' later) as [r' Hr'].
    exists r, r'. split; [exact Hr|]. split; [exact Hr'|].
    intros <-.
    assert (Hk' : read_key (registry (snd other)) (chain +:+ network')
                  = Some r).
    { rewrite <- Hr'. symmetry. apply getInstance_answer. }
    assert (Hk : read_key (registry (snd other)) (chain +:+ network)
                 = Some r).
    { apply (read_key_stable (snd first)); [exact Hwf4 | | exact Hread].
      intros l Hl. apply getInstance_keeps, run_ops_keeps, Hl. }
    apply Hne, (append_cancel_l chain).
    exact (read_key_distinct _ _ _ _ Hwf4 Hk Hk').
  - intros key l0 Hkey.
    assert (Hlater : registry later !! key = Some l0)
      by apply run_ops_keeps, Hkey.
    split; [exact Hlater|]. apply getInstance_keeps, Hlater.
Qed.

End RegistryFacts.

Lemma getInstance_singleton_witness :
  let E := Sample.env "1/100" in
  let first := getInstance E Sample.chain_ids "harmony" "mainnet" boot in
  let later :=
    run_ops E Sample.chain_ids [CallInit 0%nat Sample.client_ready] (snd first) in
  let second := getInstance E Sample.chain_ids "harmony" "mainnet" later in
  (exists l, fst first = Some (Connector l) /\
             fst second = Some (Connector l) /\
             is_Some (heap (snd second) !! l)) /\
  (exists r r', fst first = Some r /\
                fst (getInstance E Sample.chain_ids "harmony" "testnet" later)
                = Some r' /\
                r <> r').
Proof.
  intros E first later second.
  destruct (getInstance_singleton E Sample.chain_ids []
              [CallInit 0%nat Sample.client_ready]
              "harmony" "mainnet" "testnet")
    as (_ & Hconnector & _ & Hother & _).
  split; [apply Hconnector; reflexivity | apply Hother; discriminate].
Defined.

(** The registry is a plain object, and [in] sees the names every object
    inherits: for the chain [const] and the network [ructor] the very first
    call constructs nothing and answers the [constructor] member of
    [Object.prototype]. *)
Lemma getInstance_inherited_key :
  let E := Sample.env "1/100" in
  let first := getInstance E Sample.chain_ids "const" "ructor" boot in
  fst first = Some (ObjectPrototypeMember "constructor") /\
  heap (snd first) = ∅ /\
  registry (snd first) = ∅.
Proof.
  intros E first. repeat split.
Qed.

(** ** Numbers *)

Lemma digits2_log2 (p : positive) :
  Z.pos (digits2_pos p) = Z.log2 (Z.pos p) + 1.
Proof.
  assert (Hsize : forall q, digits2_pos q = Pos.size q)
    by (induction q; simpl; congruence).
  destruct p; simpl; rewrite ?Hsize; lia.
Qed.

Lemma iter_xO (p n : positive) :
  Z.pos (Pos.iter xO p n) = Z.pos p * 2 ^ Z.pos n.
Proof.
  rewrite (Pos.iter_swap_gen _ _ Z.pos xO (Z.mul 2)) by reflexivity.
  change (Pos.iter (Z.mul 2) (Z.pos p) n) with (Z.shiftl (Z.pos p) (Z.pos n)).
  apply Z.shiftl_mul_pow2. lia.
Qed.

Lemma shr_1_even (q : Z) :
  0 < q ->
  shr_1 (Build_shr_record (2 * q) false false) = Build_shr_record q false false.
Proof. destruct q; try lia. reflexivity. Qed.

Lemma shr_exact (n : positive) (q : Z) :
  0 < q ->
  SpecFloat.iter_pos shr_1 n (Build_shr_record (q * 2 ^ Z.pos n) false false)
  = Build_shr_record q false false.
Proof.
  revert q. induction n as [n IH | n IH |]; intros q Hq.
  - assert (Hpow : q * 2 ^ Z.pos n~1 = 2 * ((q * 2 ^ Z.pos n) * 2 ^ Z.pos n)).
    { replace (Z.pos n~1) with (Z.succ (Z.pos n + Z.pos n)) by lia.
      rewrite Z.pow_succ_r, Z.pow_add_r by lia. ring. }
    rewrite Hpow. cbn [SpecFloat.iter_pos].
    assert (0 < 2 ^ Z.pos n) by (apply Z.pow_pos_nonneg; lia).
    rewrite shr_1_even by nia. rewrite IH by nia. apply IH, Hq.
  - assert (Hpow : q * 2 ^ Z.pos n~0 = (q * 2 ^ Z.pos n) * 2 ^ Z.pos n).
    { replace (Z.pos n~0) with (Z.pos n + Z.pos n) by lia.
      rewrite Z.pow_add_r by lia. ring. }
    rewrite Hpow. cbn [SpecFloat.iter_pos].
    assert (0 < 2 ^ Z.pos n) by (apply Z.pow_pos_nonneg; lia).
    rewrite IH by nia. apply IH, Hq.
  - cbn [SpecFloat.iter_pos]. change (2 ^ 1) with 2. rewrite Z.mul_comm.
    apply shr_1_even, Hq.
Qed.

Lemma shr_fexp_normal (m : positive) (e : Z) :
  Z.pos (digits2_pos m) = 53 -> -1074 <= e ->
  shr_fexp prec emax (Z.pos m) e loc_Exact
  = (Build_shr_record (Z.pos m) false false, e).
Proof.
  intros Hd He. unfold shr_fexp, fexp, emin, Zdigits2, prec, emax.
  rewrite Hd.
  replace (Z.max (53 + e - 53) (3 - 1024 - 53) - e) with 0 by lia.
  reflexivity.
Qed.

Lemma binary_round_aux_normal (s : bool) (m : positive) (e : Z) :
  Z.pos (digits2_pos m) = 53 -> -1074 <= e <= 971 ->
  binary_round_aux prec emax s (Z.pos m) e loc_Exact = S754_finite s m e.
Proof.
  intros Hd He. unfold binary_round_aux.
  rewrite shr_fexp_normal by (assumption || lia).
  cbn [shr_m loc_of_shr_record round_nearest_even].
  rewrite shr_fexp_normal by (assumption || lia).
  cbn [shr_m].
  replace (e <=? emax - prec) with true; [reflexivity|].
  symmetry. apply Z.leb_le. unfold emax, prec. lia.
Qed.

Lemma binary_round_aux_exact (s : bool) (p : positive) (e n : Z) (q : positive) :
  0 < n ->
  Z.pos p = Z.pos q * 2 ^ n ->
  Z.pos (digits2_pos q) = 53 ->
  -1074 <= e + n <= 971 ->
  binary_round_aux prec emax s (Z.pos p) e loc_Exact = S754_finite s q (e + n).
Proof.
  intros Hn Hp Hq He.
  assert (Hdp : Z.pos (digits2_pos p) = 53 + n).
  { rewrite digits2_log2, Hp, Z.log2_mul_pow2 by lia.
    rewrite digits2_log2 in Hq. lia. }
  unfold binary_round_aux.
  assert (Hshr : shr_fexp prec emax (Z.pos p) e loc_Exact
                 = (Build_shr_record (Z.pos q) false false, e + n)).
  { unfold shr_fexp, fexp, emin, Zdigits2, prec, emax. rewrite Hdp.
    replace (Z.max (53 + n + e - 53) (3 - 1024 - 53) - e) with n by lia.
    cbn [shr_record_of_loc]. unfold shr.
    destruct n as [|n|n]; try lia.
    rewrite Hp, shr_exact by lia. reflexivity. }
  rewrite Hshr.
  cbn [shr_m loc_of_shr_record round_nearest_even].
  rewrite shr_fexp_normal by (assumption || lia).
  cbn [shr_m].
  replace (e + n <=? emax - prec) with true; [reflexivity|].
  symmetry. apply Z.leb_le. unfold emax, prec. lia.
Qed.

(** An integer below [2^53] is a number. *)
Lemma js_number_integer (p : positive) :
  Z.pos p < 2 ^ 53 ->
  exists m,
    js_number (Z.pos p) = S754_finite false m (Z.log2 (Z.pos p) - 52) /\
    Z.pos m = Z.pos p * 2 ^ (52 - Z.log2 (Z.pos p)) /\
    Z.pos (digits2_pos m) = 53.
Proof.
  intros Hp.
  assert (Hlog : 0 <= Z.log2 (Z.pos p) < 53).
  { split; [apply Z.log2_nonneg|]. apply Z.log2_lt_pow2; lia. }
  unfold js_number, number_of_ratio, binary_normalize, binary_round.
  destruct (Z.eq_dec (Z.log2 (Z.pos p)) 52) as [H52|H52].
  - exists p.
    assert (Hd : Z.pos (digits2_pos p) = 53) by (rewrite digits2_log2; lia).
    rewrite Hd. rewrite H52.
    change (shl_align p 0 (fexp prec emax (53 + 0))) with (p, 0).
    cbv beta iota.
    rewrite binary_round_aux_normal by (assumption || lia).
    split; [reflexivity|]. split; [|reflexivity]. change (2 ^ (52 - 52)) with 1. lia.
  - assert (Hd : Z.pos (digits2_pos p) = Z.log2 (Z.pos p) + 1)
      by apply digits2_log2.
    unfold shl_align, fexp, emin, prec, emax. rewrite Hd.
    replace (Z.max (Z.log2 (Z.pos p) + 1 + 0 - 53) (3 - 1024 - 53) - 0)
      with (Z.log2 (Z.pos p) - 52) by lia.
    replace (Z.max (Z.log2 (Z.pos p) + 1 + 0 - 53) (3 - 1024 - 53))
      with (Z.log2 (Z.pos p) - 52) by lia.
    destruct (Z.log2 (Z.pos p) - 52) as [|k|k] eqn:Hk; try lia.
    assert (Hm : Z.pos (Pos.iter xO p k)
                 = Z.pos p * 2 ^ (52 - Z.log2 (Z.pos p))).
    { rewrite iter_xO. f_equal. f_equal. lia. }
    assert (Hdm : Z.pos (digits2_pos (Pos.iter xO p k)) = 53).
    { rewrite digits2_log2, Hm, Z.log2_mul_pow2 by lia. lia. }
    exists (Pos.iter xO p k).
    cbv beta iota. fold prec emax.
    rewrite binary_round_aux_normal by (assumption || lia).
    auto.
Qed.

(** The product of a whole number with [1e9] is exact as long as the number
    times [5^9] stays below [2^53]. *)
Lemma times_1e9_integer (p : positive) :
  Z.pos p * 5 ^ 9 < 2 ^ 53 ->
  let l := Z.log2 (Z.pos p * 5 ^ 9) in
  exists m,
    times_1e9 (js_number (Z.pos p)) = S754_finite false m (l - 43) /\
    Z.pos m = Z.pos p * 5 ^ 9 * 2 ^ (52 - l) /\
    20 <= l < 53.
Proof.
  intros Hp l.
  assert (H59 : 2 ^ 20 <= 5 ^ 9) by (vm_compute; discriminate).
  assert (Hl : 20 <= l < 53).
  { subst l. split.
    - apply Z.log2_le_pow2; nia.
    - apply Z.log2_lt_pow2; lia. }
  destruct (js_number_integer p) as (mx & Hx & Hmx & Hdx); [nia|].
  assert (Hlp : 0 <= Z.log2 (Z.pos p) <= l - 20).
  { split; [apply Z.log2_nonneg|].
    assert (Z.log2 (Z.pos p * 2 ^ 20) <= l)
      by (apply Z.log2_le_mono; nia).
    rewrite Z.log2_mul_pow2 in * by lia. lia. }
  assert (Hq : 0 < Z.pos p * 5 ^ 9 * 2 ^ (52 - l)).
  { assert (0 < 2 ^ (52 - l)) by (apply Z.pow_pos_nonneg; lia). nia. }
  exists (Z.to_pos (Z.pos p * 5 ^ 9 * 2 ^ (52 - l))).
  rewrite Z2Pos.id by exact Hq.
  split; [|split; [reflexivity | exact Hl]].
  unfold times_1e9. rewrite Hx.
  change (js_number 1000000000)
    with (S754_finite false 8388608000000000 (-23)).
  cbn [SFmul xorb].
  replace (l - 43)
    with (Z.log2 (Z.pos p) - 52 + -23 + (l - Z.log2 (Z.pos p) + 32)) by lia.
  apply binary_round_aux_exact.
  - lia.
  - rewrite Pos2Z.inj_mul, Hmx, Z2Pos.id by exact Hq.
    change (Z.pos 8388608000000000) with (5 ^ 9 * 2 ^ 32).
    rewrite <- !Z.mul_assoc, <- Z.pow_add_r by lia.
    rewrite (Z.mul_comm (2 ^ _) (5 ^ 9 * _)).
    rewrite <- !Z.mul_assoc, <- Z.pow_add_r by lia.
    do 3 f_equal. lia.
  - rewrite digits2_log2, Z2Pos.id, Z.log2_mul_pow2 by lia. fold l. lia.
  - lia.
Qed.

Lemma round_half_up_integer (m : positive) (e G : Z) :
  is_integer m e G -> round_half_up m e = G.
Proof.
  unfold is_integer, round_half_up. destruct (0 <=? e) eqn:He; [auto|].
  apply Z.leb_gt in He. intros ->.
  assert (Hk : 0 < 2 ^ (- e)) by (apply Z.pow_pos_nonneg; lia).
  replace (1 - e) with (Z.succ (- e)) by lia.
  rewrite Z.pow_succ_r by lia.
  replace (2 * (G * 2 ^ (- e)) + 2 ^ (- e)) with ((2 * G + 1) * 2 ^ (- e))
    by ring.
  rewrite Z.div_mul_cancel_r by lia. 
  symmetry. apply Z.div_unique with (r := 1); lia.
Qed.

Lemma at_least_1e21_integer (m : positive) (e G : Z) :
  is_integer m e G -> at_least_1e21 m e = (10 ^ 21 <=? G).
Proof.
  unfold is_integer, at_least_1e21. destruct (0 <=? e) eqn:He.
  - intros ->. reflexivity.
  - apply Z.leb_gt in He. intros ->.
    assert (Hk : 0 < 2 ^ (- e)) by (apply Z.pow_pos_nonneg; lia).
    destruct (10 ^ 21 <=? G) eqn:HG.
    + apply Z.leb_le in HG. apply Z.leb_le. nia.
    + apply Z.leb_gt in HG. apply Z.leb_gt. nia.
Qed.

(** [toFixed(0)] of a number that is an integer below [10^21]. *)
Lemma toFixed0_integer (s : bool) (m : positive) (e G : Z) :
  is_integer m e G -> G < 10 ^ 21 ->
  toFixed0 (S754_finite s m e)
  = (if s then "-" else "") +:+ decimal_string G.
Proof.
  intros HG Hlt. unfold toFixed0.
  rewrite (at_least_1e21_integer m e G HG).
  replace (10 ^ 21 <=? G) with false by (symmetry; apply Z.leb_gt, Hlt).
  rewrite (round_half_up_integer m e G HG). reflexivity.
Qed.

(** Whole gwei: as long as [g * 5^9] is below [2^53] (that is, up to
    4611686018 gwei), [(g * 1e9).toFixed(0)] is [g * 10^9] in decimal. *)
Lemma toFixed0_times_1e9_integer (g : Z) :
  0 <= g -> g * 5 ^ 9 < 2 ^ 53 ->
  toFixed0 (times_1e9 (js_number g)) = decimal_string (g * 10 ^ 9).
Proof.
  intros Hg Hlt. destruct g as [|p|p]; [reflexivity | | lia].
  destruct (times_1e9_integer p Hlt) as (m & -> & Hm & Hl).
  set (l := Z.log2 (Z.pos p * 5 ^ 9)) in *.
  rewrite (toFixed0_integer false m (l - 43) (Z.pos p * 10 ^ 9)).
  - reflexivity.
  - unfold is_integer. change (10 ^ 9) with (5 ^ 9 * 2 ^ 9).
    destruct (0 <=? l - 43) eqn:He.
    + apply Z.leb_le in He. rewrite Hm, <- Z.mul_assoc, <- Z.pow_add_r by lia.
      replace (52 - l + (l - 43)) with 9 by lia. ring.
    + apply Z.leb_gt in He. rewrite Hm.
      rewrite <- !Z.mul_assoc, <- Z.pow_add_r by lia.
      do 3 f_equal. lia.
  - assert (2 ^ 53 * 10 ^ 9 < 10 ^ 21 * 5 ^ 9) by (vm_compute; reflexivity).
    assert (0 < 5 ^ 9) by (vm_compute; reflexivity).
    assert (0 < 10 ^ 9) by (vm_compute; reflexivity).
    nia.
Qed.

Lemma round_half_up_nearest (m : positive) (e : Z) :
  nearest_integer m e (round_half_up m e).
Proof.
  unfold nearest_integer, round_half_up.
  destruct (0 <=? e) eqn:He; [reflexivity|]. apply Z.leb_gt in He.
  assert (Hk : 0 < 2 ^ (- e)) by (apply Z.pow_pos_nonneg; lia).
  replace (1 - e) with (Z.succ (- e)) by lia.
  rewrite Z.pow_succ_r by lia.
  pose proof (Z.div_mod (2 * Z.pos m + 2 ^ (- e)) (2 * 2 ^ (- e))) as Hdiv.
  pose proof (Z.mod_pos_bound (2 * Z.pos m + 2 ^ (- e)) (2 * 2 ^ (- e)))
    as Hmod.
  nia.
Qed.

(** ** Execution: nonces and fee fields *)

Section ExecutionFacts.
Context (E : Env) {W : Type} (H : Handlers W).

Lemma feeBranch_false (maxFeePerGas maxPriorityFeePerGas : option Z) :
  feeBranch maxFeePerGas maxPriorityFeePerGas = false <->
  maxFeePerGas = None /\ maxPriorityFeePerGas = None.
Proof.
  unfold feeBranch.
  destruct maxFeePerGas, maxPriorityFeePerGas; simpl; split;
    try discriminate; try (intros [? ?]; discriminate); auto.
Qed.

(** C1, as the code has it.  In a call without a nonce whose slippage
    tolerance resolves, whose call parameters are derived and whose contract
    handle is built (the statements before the nonce step), the nonce
    manager is asked once, for the wallet's address; every [commitNonce]
    comes after an accepted submission; when the submission is accepted, the
    nonce handed out is the one submitted and the one committed, once, for
    that address; when it is not (or no nonce was handed out), nothing is
    committed. *)
Theorem executeTrade_leases_one_nonce
    (w : W) (this : Defira) (wallet : Wallet) (trade : UniswapTrade)
    (gasPrice gasLimit : number) (defiraRouter : string) (ttl : Z)
    (abi : ContractInterface) (maxFeePerGas maxPriorityFeePerGas : option Z)
    (allowedSlippage : option string)
    (tolerance : UniswapPercent) (parameters : SwapParameters)
    (contract : Contract) :
  getAllowedSlippage E allowedSlippage = Ok tolerance ->
  swapCallParameters E trade
    (mkTradeOptions ttl (wallet_address wallet) tolerance) = Ok parameters ->
  newContract E defiraRouter abi wallet = Ok contract ->
  let r := exec H (executeTrade E this wallet trade gasPrice defiraRouter ttl
                     abi gasLimit None maxFeePerGas maxPriorityFeePerGas
                     allowedSlippage) w in
  nonce_requests (trace r) = [wallet_address wallet] /\
  commits_follow_success false (trace r) = true /\
  if submission_succeeded (trace r) then
    exists n,
      nonces_acquired (trace r) = [(wallet_address wallet, n)] /\
      commits (trace r) = [(wallet_address wallet, n)] /\
      Forall (fun o => field "nonce" o = Some (JNumber n))
             (submitted_overrides (trace r))
  else commits (trace r) = [].
Proof.
  intros Htol Hparams Hcontract. unfold executeTrade. rewrite Htol. simpl.
  rewrite Hparams. simpl. rewrite Hcontract. simpl. next_answer; [|auto].
  destruct (feeBranch maxFeePerGas maxPriorityFeePerGas); run_all;
    repeat split; try reflexivity;
    exists n; repeat split; repeat constructor.
Qed.

(** Whatever only [commitNonce] can change in the world (the committed
    nonces of a nonce manager, say) is, after a call whose submission was not
    accepted, what it was before the call. *)
Lemma executeTrade_refused_keeps_watermark
    {X : Type} (watermark : W -> X)
    (w : W) (this : Defira) (wallet : Wallet) (trade : UniswapTrade)
    (gasPrice gasLimit : number) (defiraRouter : string) (ttl : Z)
    (abi : ContractInterface) (nonce : option Z)
    (maxFeePerGas maxPriorityFeePerGas : option Z)
    (allowedSlippage : option string) :
  (forall addr w0, watermark (snd (on_getNonce H addr w0)) = watermark w0) ->
  (forall c m a o w0,
     watermark (snd (on_contractCall H c m a o w0)) = watermark w0) ->
  let r := exec H (executeTrade E this wallet trade gasPrice defiraRouter ttl
                     abi gasLimit nonce maxFeePerGas maxPriorityFeePerGas
                     allowedSlippage) w in
  submission_succeeded (trace r) = false ->
  watermark (world r) = watermark w.
Proof.
  intros Hget Hcall. unfold executeTrade.
  destruct (getAllowedSlippage E allowedSlippage) as [tolerance|e]; simpl;
    [|reflexivity].
  destruct (swapCallParameters E trade _) as [parameters|e]; simpl;
    [|reflexivity].
  destruct (newContract E defiraRouter abi wallet) as [contract|e]; simpl;
    [|reflexivity].
  assert (Hsubmit : forall n w1 o,
    watermark w1 = watermark w ->
    let r := exec H (let* tx :=
                       ContractCall contract (methodName parameters)
                                    (args parameters) o Return in
                     LoggerInfo (LogTx tx)
                       (CommitNonce (wallet_address wallet) n (Return tx))) w1
    in submission_succeeded (trace r) = false ->
       watermark (world r) = watermark w).
  { intros n w1 o Hw1. simpl.
    pose proof (Hcall contract (methodName parameters) (args parameters) o w1)
      as Hw2.
    destruct (on_contractCall H contract _ _ o w1) as [[tx|e] w2]; simpl.
    - destruct (on_commitNonce H _ n w2) as [[u|e] w3]; discriminate.
    - intros _. simpl in Hw2. congruence. }
  destruct nonce as [n|]; simpl.
  - destruct (feeBranch maxFeePerGas maxPriorityFeePerGas);
      apply Hsubmit; reflexivity.
  - pose proof (Hget (wallet_address wallet) w) as Hw1.
    destruct (on_getNonce H (wallet_address wallet) w) as [[n|e] w1];
      simpl in *; [|intros _; exact Hw1].
    destruct (feeBranch maxFeePerGas maxPriorityFeePerGas); simpl;
      intros Hfail; apply (Hsubmit n w1 _ Hw1); exact Hfail.
Qed.

(** C10.  In a call with a nonce [n] of the caller the nonce manager is not
    asked; every [commitNonce] comes after an accepted submission; when the
    submission is accepted, [n] is the nonce submitted and [commitNonce] is
    called once, with the wallet's address and [n]; otherwise it is not
    called.  A call that returns a transaction has submitted it, logged it
    and committed [n], in that order, and did nothing else.  And the commit
    step runs whenever the submission is accepted: if the statements before
    the submission go through and the contract call answers a transaction,
    the call logs it and calls [commitNonce] with the wallet's address and
    [n]; it returns that transaction if the commit goes through and throws
    the commit's error otherwise, and leaves the world as the commit left
    it. *)
Theorem executeTrade_commits_supplied_nonce
    (w : W) (this : Defira) (wallet : Wallet) (trade : UniswapTrade)
    (gasPrice gasLimit : number) (defiraRouter : string) (ttl : Z)
    (abi : ContractInterface) (n : Z)
    (maxFeePerGas maxPriorityFeePerGas : option Z)
    (allowedSlippage : option string) :
  let r := exec H (executeTrade E this wallet trade gasPrice defiraRouter ttl
                     abi gasLimit (Some n) maxFeePerGas maxPriorityFeePerGas
                     allowedSlippage) w in
  nonce_requests (trace r) = [] /\
  commits_follow_success false (trace r) = true /\
  (if submission_succeeded (trace r) then
     commits (trace r) = [(wallet_address wallet, n)] /\
     Forall (fun o => field "nonce" o = Some (JNumber n))
            (submitted_overrides (trace r))
   else commits (trace r) = []) /\
  (forall tx, outcome r = Ok tx ->
     exists contract method arguments overrides,
       trace r = [Submitted contract method arguments overrides (Ok tx);
                  Logged (LogTx tx);
                  NonceCommitted (wallet_address wallet) n (Ok tt)]) /\
  (forall tolerance parameters contract tx w1,
     getAllowedSlippage E allowedSlippage = Ok tolerance ->
     swapCallParameters E trade
       (mkTradeOptions ttl (wallet_address wallet) tolerance)
     = Ok parameters ->
     newContract E defiraRouter abi wallet = Ok contract ->
     let overrides :=
       if feeBranch maxFeePerGas maxPriorityFeePerGas then
         feeOverrides gasLimit (value parameters) n
                      maxFeePerGas maxPriorityFeePerGas
       else gasPriceOverrides gasPrice gasLimit (value parameters) n in
     on_contractCall H contract (methodName parameters) (args parameters)
                     overrides w = (Ok tx, w1) ->
     let committed := on_commitNonce H (wallet_address wallet) n w1 in
     trace r = [Submitted contract (methodName parameters) (args parameters)
                          overrides (Ok tx);
                Logged (LogTx tx);
                NonceCommitted (wallet_address wallet) n (fst committed)] /\
     outcome r = match fst committed with
                 | Ok _ => Ok tx
                 | Throw e => Throw e
                 end /\
     world r = snd committed).
Proof.
  unfold executeTrade.
  destruct (getAllowedSlippage E allowedSlippage) as [tolerance|e]; simpl;
    [|split; [|split; [|split; [|split]]]; try reflexivity;
      [intros ? [=] | intros; congruence]].
  destruct (swapCallParameters E trade _) as [parameters|e] eqn:Hparams; simpl;
    [|split; [|split; [|split; [|split]]]; try reflexivity;
      [intros ? [=] | intros; congruence]].
  destruct (newContract E defiraRouter abi wallet) as [contract|e]; simpl;
    [|split; [|split; [|split; [|split]]]; try reflexivity;
      [intros ? [=] | intros; congruence]].
  split; [|split; [|split; [|split]]].
  - destruct (feeBranch maxFeePerGas maxPriorityFeePerGas); run_all;
      reflexivity.
  - destruct (feeBranch maxFeePerGas maxPriorityFeePerGas); run_all;
      reflexivity.
  - destruct (feeBranch maxFeePerGas maxPriorityFeePerGas); run_all;
      repeat split; repeat constructor.
  - intros tx0.
    destruct (feeBranch maxFeePerGas maxPriorityFeePerGas); run_all;
      intros [= <-] || discriminate; destruct u; eauto.
  - intros tolerance0 parameters0 contract0 tx0 w1 [= <-] Hparams0 [= <-].
    rewrite Hparams in Hparams0. injection Hparams0 as <-.
    cbv zeta. intros Hcall.
    destruct (feeBranch maxFeePerGas maxPriorityFeePerGas); simpl;
      rewrite Hcall; simpl;
      destruct (on_commitNonce H (wallet_address wallet) n w1) as [[u|e] w2];
      simpl; auto.
Qed.

(** A call submits nothing and fails, or submits once, with the overrides
    of the branch taken. *)
Lemma executeTrade_submissions
    (w : W) (this : Defira) (wallet : Wallet) (trade : UniswapTrade)
    (gasPrice gasLimit : number) (defiraRouter : string) (ttl : Z)
    (abi : ContractInterface) (nonce : option Z)
    (maxFeePerGas maxPriorityFeePerGas : option Z)
    (allowedSlippage : option string) :
  let r := exec H (executeTrade E this wallet trade gasPrice defiraRouter ttl
                     abi gasLimit nonce maxFeePerGas maxPriorityFeePerGas
                     allowedSlippage) w in
  (submitted_overrides (trace r) = [] /\ is_ok (outcome r) = false) \/
  exists parameters n,
    submitted_overrides (trace r) =
      [if feeBranch maxFeePerGas maxPriorityFeePerGas then
         feeOverrides gasLimit (value parameters) n
                      maxFeePerGas maxPriorityFeePerGas
       else gasPriceOverrides gasPrice gasLimit (value parameters) n].
Proof.
  unfold executeTrade.
  destruct (getAllowedSlippage E allowedSlippage) as [tolerance|e]; simpl;
    [|left; auto].
  destruct (swapCallParameters E trade _) as [parameters|e]; simpl;
    [|left; auto].
  destruct (newContract E defiraRouter abi wallet) as [contract|e]; simpl;
    [|left; auto].
  destruct nonce as [n|]; simpl.
  - right. exists parameters, n.
    destruct (feeBranch maxFeePerGas maxPriorityFeePerGas); run_all;
      reflexivity.
  - next_answer; [|left; auto].
    right. exists parameters, n.
    destruct (feeBranch maxFeePerGas maxPriorityFeePerGas); run_all;
      reflexivity.
Qed.

(** C2, as the code has it.  Every submission of a call carries, when
    neither fee argument is given, a [gasPrice] field holding
    [(gasPrice * 1e9).toFixed(0)] and no fee field; and, when one of them is
    given, both fee fields (each holding its argument, [undefined] for the
    one left out) and no [gasPrice] field.  The choice is one test, false
    exactly when both arguments are absent; a call submits at most once, and
    a call that returns has submitted.  The [gasPrice] string is [g * 10^9]
    in decimal when [gasPrice] is a whole number [g] of gwei with
    [g * 5^9 < 2^53] (the product is exact then); whenever the product is a
    finite number below [10^21] in magnitude, it is the sign and the decimal
    digits of an integer nearest to the magnitude; from [10^21] on it is the
    number in exponent notation, not an integer string. *)
Theorem executeTrade_fee_fields
    (w : W) (this : Defira) (wallet : Wallet) (trade : UniswapTrade)
    (gasPrice gasLimit : number) (defiraRouter : string) (ttl : Z)
    (abi : ContractInterface) (nonce : option Z)
    (maxFeePerGas maxPriorityFeePerGas : option Z)
    (allowedSlippage : option string) :
  let r := exec H (executeTrade E this wallet trade gasPrice defiraRouter ttl
                     abi gasLimit nonce maxFeePerGas maxPriorityFeePerGas
                     allowedSlippage) w in
  let gasPrice_is (s : string) :=
    Forall (fun o => field "gasPrice" o = Some (JString s))
           (submitted_overrides (trace r)) in
  Forall
    (fun o =>
       if feeBranch maxFeePerGas maxPriorityFeePerGas then
         field "maxFeePerGas" o = Some (js_big maxFeePerGas) /\
         field "maxPriorityFeePerGas" o = Some (js_big maxPriorityFeePerGas) /\
         field "gasPrice" o = None
       else
         field "gasPrice" o
         = Some (JString (toFixed0 (times_1e9 gasPrice))) /\
         field "maxFeePerGas" o = None /\
         field "maxPriorityFeePerGas" o = None)
    (submitted_overrides (trace r)) /\
  (feeBranch maxFeePerGas maxPriorityFeePerGas = false <->
   maxFeePerGas = None /\ maxPriorityFeePerGas = None) /\
  (length (submitted_overrides (trace r)) <= 1)%nat /\
  (is_ok (outcome r) = true ->
   length (submitted_overrides (trace r)) = 1%nat) /\
  (forall g,
     feeBranch maxFeePerGas maxPriorityFeePerGas = false ->
     gasPrice = js_number g -> 0 <= g -> g * 5 ^ 9 < 2 ^ 53 ->
     gasPrice_is (decimal_string (g * 10 ^ 9))) /\
  (forall s m e,
     feeBranch maxFeePerGas maxPriorityFeePerGas = false ->
     times_1e9 gasPrice = S754_finite s m e ->
     if at_least_1e21 m e
     then gasPrice_is ((if s then "-" else "") +:+ exponent_notation m e)
     else exists N,
            nearest_integer m e N /\
            gasPrice_is ((if s then "-" else "") +:+ decimal_string N)).
Proof.
  intros r gasPrice_is.
  assert (Hfield :
            feeBranch maxFeePerGas maxPriorityFeePerGas = false ->
            gasPrice_is (toFixed0 (times_1e9 gasPrice))).
  { intros Hbranch. unfold gasPrice_is.
    destruct (executeTrade_submissions w this wallet trade gasPrice gasLimit
                defiraRouter ttl abi nonce maxFeePerGas maxPriorityFeePerGas
                allowedSlippage) as [[Hnone _] | (parameters & n & Hone)];
      fold r in Hnone || fold r in Hone.
    - rewrite Hnone. constructor.
    - rewrite Hone, Hbranch. repeat constructor. }
  destruct (executeTrade_submissions w this wallet trade gasPrice gasLimit
              defiraRouter ttl abi nonce maxFeePerGas maxPriorityFeePerGas
              allowedSlippage) as [[Hnone Hfail] | (parameters & n & Hone)];
    fold r in Hnone, Hfail || fold r in Hone.
  - rewrite Hfail.
    split; [rewrite Hnone; constructor|].
    split; [apply feeBranch_false|].
    split; [rewrite Hnone; simpl; lia|].
    split; [discriminate|].
    split.
    + intros g Hbranch -> Hg Hlt.
      rewrite <- (toFixed0_times_1e9_integer g Hg Hlt). auto.
    + intros s m e Hbranch Hproduct. specialize (Hfield Hbranch).
      rewrite Hproduct in Hfield. unfold toFixed0 in Hfield.
      destruct (at_least_1e21 m e); [exact Hfield|].
      exists (round_half_up m e).
      split; [apply round_half_up_nearest | exact Hfield].
  - split.
    { rewrite Hone. constructor; [|constructor].
      destruct (feeBranch maxFeePerGas maxPriorityFeePerGas);
        repeat split; reflexivity. }
    split; [apply feeBranch_false|].
    split; [rewrite Hone; simpl; lia|].
    split; [rewrite Hone; reflexivity|].
    split.
    + intros g Hbranch -> Hg Hlt.
      rewrite <- (toFixed0_times_1e9_integer g Hg Hlt). auto.
    + intros s m e Hbranch Hproduct. specialize (Hfield Hbranch).
      rewrite Hproduct in Hfield. unfold toFixed0 in Hfield.
      destruct (at_least_1e21 m e); [exact Hfield|].
      exists (round_half_up m e).
      split; [apply round_half_up_nearest | exact Hfield].
Qed.
End ExecutionFacts.

Lemma executeTrade_leases_one_nonce_witness :
  let E := Sample.env "1/100" in
  let r := exec Sample.handlers
             (executeTrade E (Sample.connector E) Sample.alice Sample.a_trade
                (js_number 30) "0xrouter" 300 [] (js_number 200000)
                None None None None) Sample.world0 in
  nonce_requests (trace r) = ["0xA11CE"] /\
  commits_follow_success false (trace r) = true /\
  if submission_succeeded (trace r) then
    exists n,
      nonces_acquired (trace r) = [("0xA11CE", n)] /\
      commits (trace r) = [("0xA11CE", n)] /\
      Forall (fun o => field "nonce" o = Some (JNumber n))
             (submitted_overrides (trace r))
  else commits (trace r) = [].
Proof.
  intros E.
  apply (executeTrade_leases_one_nonce E Sample.handlers Sample.world0
           (Sample.connector E) Sample.alice Sample.a_trade
           (js_number 30) (js_number 200000) "0xrouter" 300 [] None None None
           (mkPercent 1 100)
           (mkSwapParameters "swapExactTokensForTokens"
                             [ArgString "0xA11CE"] "0x0")
           (mkContract "0xrouter" [] Sample.alice));
    reflexivity.
Defined.

(** On the sample nonce manager: an accepted submission moves the committed
    nonce of the wallet to the nonce handed out, a refused one leaves the
    nonce manager as it was. *)
Example executeTrade_sample_runs :
  let E := Sample.env "1/100" in
  let call := executeTrade E (Sample.connector E) Sample.alice Sample.a_trade
                (js_number 30) "0xrouter" 300 [] (js_number 200000)
                None None None None in
  let accepted := exec Sample.handlers call Sample.world0 in
  let refused := exec Sample.handlers call Sample.world_down in
  nonces_acquired (trace accepted) = [("0xA11CE", 1)] /\
  commits (trace accepted) = [("0xA11CE", 1)] /\
  Sample.committed (world accepted) !! "0xA11CE" = Some 1 /\
  outcome refused = Throw (Rejected "node down") /\
  nonces_acquired (trace refused) = [("0xA11CE", 1)] /\
  commits (trace refused) = [] /\
  Sample.committed (world refused) = Sample.committed Sample.world_down.
Proof. vm_compute. repeat split. Qed.

(** C1 as stated fails: with a malformed configured slippage and no
    override, the call throws at its first statement; the nonce manager is
    never asked, so the number of nonces acquired is zero, not one. *)
Lemma executeTrade_malformed_config_requests_no_nonce :
  let E := Sample.env "2%" in
  let r := exec Sample.handlers
             (executeTrade E (Sample.connector E) Sample.alice Sample.a_trade
                (js_number 30) "0xrouter" 300 [] (js_number 200000)
                None None None None) Sample.world0 in
  trace r = [] /\
  outcome r = Throw malformed_percent /\
  nonces_acquired (trace r) = [] /\
  nonce_requests (trace r) <> [wallet_address Sample.alice].
Proof. vm_compute. repeat split. discriminate. Qed.

Lemma executeTrade_fee_fields_witness :
  let E := Sample.env "1/100" in
  let r := exec Sample.handlers
             (executeTrade E (Sample.connector E) Sample.alice Sample.a_trade
                (js_number 30) "0xrouter" 300 [] (js_number 200000)
                None None None None) Sample.world0 in
  is_ok (outcome r) = true /\
  length (submitted_overrides (trace r)) = 1%nat /\
  Forall (fun o => field "gasPrice" o = Some (JString "30000000000"))
         (submitted_overrides (trace r)).
Proof.
  intros E r.
  destruct (executeTrade_fee_fields E Sample.handlers Sample.world0
              (Sample.connector E) Sample.alice Sample.a_trade
              (js_number 30) (js_number 200000) "0xrouter" 300 [] None
              None None None) as (_ & _ & _ & Hreturned & Hgwei & _).
  split; [reflexivity|].
  split; [apply Hreturned; reflexivity|].
  apply (Hgwei 30); [reflexivity | reflexivity | lia | reflexivity].
Defined.

(** C2 as stated fails: for a gas price of [10^12] gwei the product is
    [10^21], which [toFixed(0)] prints in exponent notation; the [gasPrice]
    field of the accepted submission is not [gasPrice * 10^9] as an integer
    string. *)
Lemma executeTrade_gasPrice_exponent_notation :
  let E := Sample.env "1/100" in
  let r := exec Sample.handlers
             (executeTrade E (Sample.connector E) Sample.alice Sample.a_trade
                (js_number (10 ^ 12)) "0xrouter" 300 [] (js_number 200000)
                None None None None) Sample.world0 in
  is_ok (outcome r) = true /\
  submitted_overrides (trace r)
  = [[("gasPrice", JString "1e+21"); ("gasLimit", JString "200000");
      ("value", JString "0x0"); ("nonce", JNumber 1)]] /\
  decimal_string (10 ^ 12 * 10 ^ 9) = "1000000000000000000000".
Proof. vm_compute. repeat split. Qed.

Lemma executeTrade_commits_supplied_nonce_witness :
  let E := Sample.env "1/100" in
  let r := exec Sample.handlers
             (executeTrade E (Sample.connector E) Sample.alice Sample.a_trade
                (js_number 30) "0xrouter" 300 [] (js_number 200000)
                (Some 7) None None None) Sample.world0 in
  commits (trace r) = [("0xA11CE", 7)] /\
  Sample.committed (world r) !! "0xA11CE" = Some 7.
Proof.
  intros E r.
  destruct (executeTrade_commits_supplied_nonce E Sample.handlers
              Sample.world0 (Sample.connector E) Sample.alice Sample.a_trade
              (js_number 30) (js_number 200000) "0xrouter" 300 [] 7
              None None None) as (_ & _ & _ & _ & Haccepted).
  edestruct Haccepted as (Htrace & _ & Hworld); try reflexivity.
  fold r in Htrace, Hworld. rewrite Htrace, Hworld. split; reflexivity.
Defined.

(** The two submissions on the sample environment: 30 gwei without fee
    arguments, and a call that gives [maxFeePerGas] only. *)
Example executeTrade_sample_overrides :
  let E := Sample.env "1/100" in
  let call := executeTrade E (Sample.connector E) Sample.alice Sample.a_trade
                (js_number 30) "0xrouter" 300 [] (js_number 200000) in
  submitted_overrides
    (trace (exec Sample.handlers (call None None None None) Sample.world0))
  = [[("gasPrice", JString "30000000000"); ("gasLimit", JString "200000");
      ("value", JString "0x0"); ("nonce", JNumber 1)]] /\
  submitted_overrides
    (trace (exec Sample.handlers (call (Some 7) (Some 5) None None)
                 Sample.world0))
  = [[("gasLimit", JString "200000"); ("value", JString "0x0");
      ("nonce", JNumber 7); ("maxFeePerGas", JBigNumber 5);
      ("maxPriorityFeePerGas", JUndefined)]] /\
  commits
    (trace (exec Sample.handlers (call (Some 7) (Some 5) None None)
                 Sample.world0))
  = [("0xA11CE", 7)].
Proof. vm_compute. repeat split. Qed.

(** ** Quoting *)

Section EstimateFacts.
Context (E : Env) {W : Type} (H : Handlers W).

(** When the search finds no trade, [estimateBuyTrade] throws the price
    error that names the two addresses. *)
Lemma estimateBuyTrade_no_trade
    (w w' : W) (this : Defira) (quoteToken baseToken : UniswapToken)
    (amount : Z) (allowedSlippage : option string)
    (nativeTokenAmount : UniswapTokenAmount) (pair : UniswapPair)
    (trades : option (list UniswapTrade)) :
  newUniswapTokenAmount E baseToken amount = Ok nativeTokenAmount ->
  on_fetchPairData H quoteToken baseToken (harmony this) w = (Ok pair, w') ->
  bestTradeExactOut E [pair] quoteToken nativeTokenAmount
                    (mkBestTradeOptions 1) = Ok trades ->
  trades = None \/ trades = Some [] ->
  outcome (exec H (estimateBuyTrade E this quoteToken baseToken amount
                     allowedSlippage) w)
  = Throw (UniswapishPriceError
             ("priceSwapOut: no trade pair found for " +:+
              address quoteToken +:+ " to " +:+ address baseToken +:+ ".")).
Proof.
  intros Hamount Hfetch Hbest Hnone. unfold estimateBuyTrade.
  rewrite Hamount. cbn [bind lift exec].
  rewrite Hfetch. cbn [bind lift after outcome]. rewrite Hbest.
  destruct Hnone as [-> | ->]; reflexivity.
Qed.

(** When the search finds no trade, [estimateSellTrade] throws a price
    error whose message is the same for every pair of tokens. *)
Lemma estimateSellTrade_no_trade
    (w w' : W) (this : Defira) (baseToken quoteToken : UniswapToken)
    (amount : Z) (allowedSlippage : option string)
    (nativeTokenAmount : UniswapTokenAmount) (pair : UniswapPair)
    (trades : option (list UniswapTrade)) :
  newUniswapTokenAmount E baseToken amount = Ok nativeTokenAmount ->
  on_fetchPairData H quoteToken baseToken (harmony this) w = (Ok pair, w') ->
  bestTradeExactIn E [pair] nativeTokenAmount quoteToken
                   (mkBestTradeOptions 1) = Ok trades ->
  trades = None \/ trades = Some [] ->
  outcome (exec H (estimateSellTrade E this baseToken quoteToken amount
                     allowedSlippage) w)
  = Throw (UniswapishPriceError
             "priceSwapIn: no trade pair found for [object Object] to [object Object].").
Proof.
  intros Hamount Hfetch Hbest Hnone. unfold estimateSellTrade.
  rewrite Hamount. cbn [bind lift exec].
  rewrite Hfetch. cbn [bind lift after outcome]. rewrite Hbest.
  destruct Hnone as [-> | ->]; reflexivity.
Qed.

(** The estimators return when every step does. *)
Lemma estimateSellTrade_returns
    (w w' : W) (this : Defira) (baseToken quoteToken : UniswapToken)
    (amount : Z) (allowedSlippage : option string)
    (nativeTokenAmount : UniswapTokenAmount) (pair : UniswapPair)
    (best : UniswapTrade) (others : list UniswapTrade) (price : string)
    (tolerance : UniswapPercent) (expected : UniswapTokenAmount) :
  newUniswapTokenAmount E baseToken amount = Ok nativeTokenAmount ->
  on_fetchPairData H quoteToken baseToken (harmony this) w = (Ok pair, w') ->
  bestTradeExactIn E [pair] nativeTokenAmount quoteToken
                   (mkBestTradeOptions 1) = Ok (Some (best :: others)) ->
  executionPrice_toFixed6 E best = Ok price ->
  getAllowedSlippage E allowedSlippage = Ok tolerance ->
  minimumAmountOut E best tolerance = Ok expected ->
  outcome (exec H (estimateSellTrade E this baseToken quoteToken amount
                     allowedSlippage) w)
  = Ok (mkExpectedTrade best expected).
Proof.
  intros Hamount Hfetch Hbest Hprice Htol Hmin. unfold estimateSellTrade.
  rewrite Hamount. cbn [bind lift exec].
  rewrite Hfetch. cbn [bind lift after outcome firstTrade]. rewrite Hbest.
  cbn [bind lift firstTrade]. rewrite Hprice.
  cbn [bind lift exec after outcome]. rewrite Htol.
  cbn [bind lift exec outcome]. rewrite Hmin. reflexivity.
Qed.

Lemma estimateBuyTrade_returns
    (w w' : W) (this : Defira) (quoteToken baseToken : UniswapToken)
    (amount : Z) (allowedSlippage : option string)
    (nativeTokenAmount : UniswapTokenAmount) (pair : UniswapPair)
    (best : UniswapTrade) (others : list UniswapTrade) (price : string)
    (tolerance : UniswapPercent) (expected : UniswapTokenAmount) :
  newUniswapTokenAmount E baseToken amount = Ok nativeTokenAmount ->
  on_fetchPairData H quoteToken baseToken (harmony this) w = (Ok pair, w') ->
  bestTradeExactOut E [pair] quoteToken nativeTokenAmount
                    (mkBestTradeOptions 1) = Ok (Some (best :: others)) ->
  executionPrice_invert_toFixed6 E best = Ok price ->
  getAllowedSlippage E allowedSlippage = Ok tolerance ->
  maximumAmountIn E best tolerance = Ok expected ->
  outcome (exec H (estimateBuyTrade E this quoteToken baseToken amount
                     allowedSlippage) w)
  = Ok (mkExpectedTrade best expected).
Proof.
  intros Hamount Hfetch Hbest Hprice Htol Hmax. unfold estimateBuyTrade.
  rewrite Hamount. cbn [bind lift exec].
  rewrite Hfetch. cbn [bind lift after outcome firstTrade]. rewrite Hbest.
  cbn [bind lift firstTrade]. rewrite Hprice.
  cbn [bind lift exec after outcome]. rewrite Htol.
  cbn [bind lift exec outcome]. rewrite Hmax. reflexivity.
Qed.

End EstimateFacts.


(** C5, where the code departs from it.  On a pool from which nothing can be
    bought, [estimateSellTrade] throws the price error without building an
    [ExpectedTrade], but its message holds the text that the two token
    objects print as, not their addresses; [estimateBuyTrade] on the same
    pool names both addresses. *)
Theorem estimateSellTrade_price_error_omits_addresses :
  let E := Sample.env "1/100" in
  let sell := exec Sample.handlers
                (estimateSellTrade E (Sample.connector E) Sample.WONE
                   Sample.USDC 1000000000000000000000 None)
                Sample.world_dry in
  let buy := exec Sample.handlers
               (estimateBuyTrade E (Sample.connector E) Sample.USDC
                  Sample.WONE 1000000000000000000000 None)
               Sample.world_dry in
  let message :=
    "priceSwapIn: no trade pair found for [object Object] to [object Object]." in
  bestTradeExactIn E [Sample.dry_pool]
    (mkTokenAmount Sample.WONE 1000000000000000000000) Sample.USDC
    (mkBestTradeOptions 1) = Ok (Some []) /\
  outcome sell = Throw (UniswapishPriceError message) /\
  includes (address Sample.WONE) message = false /\
  includes (address Sample.USDC) message = false /\
  outcome buy
  = Throw (UniswapishPriceError
             "priceSwapOut: no trade pair found for 0x985458E523dB3d53125813eD68c274899e9DfAb4 to 0xcF664087a5bB0237a0BAd6742852ec6c8d69A27a.").
Proof. vm_compute. repeat split. Qed.

(** * Further properties *)

(** ** Slippage resolution, continued *)

(** X1.  Without a usable override (none, or one the validator refuses), the
    tolerance is built from the two groups that the percent pattern captures
    from the configured string: a refused override is passed over in
    silence. *)
Theorem getAllowedSlippage_configured_default
    (E : Env) (override : option string) (g1 g2 : string) (n d : Z) :
  percentRegexp_match E (config_allowedSlippage E) = Some (Some g1, Some g2) ->
  parseBigintIsh E (Some g1) = Ok n ->
  parseBigintIsh E (Some g2) = Ok d ->
  (override = None \/
   exists s, override = Some s /\ isFractionString E s = false) ->
  getAllowedSlippage E override = Ok (mkPercent n d).
Proof.
  intros Hcfg Hn Hd Hoverride.
  assert (Hdefault : configuredSlippage E = Ok (mkPercent n d)).
  { unfold configuredSlippage, newUniswapPercent.
    rewrite Hcfg, Hn. simpl. rewrite Hd. reflexivity. }
  destruct Hoverride as [-> | (s & -> & Hs)]; unfold getAllowedSlippage;
    [|rewrite Hs]; exact Hdefault.
Qed.

Lemma getAllowedSlippage_configured_default_witness :
  getAllowedSlippage (Sample.env "2/100") None = Ok (mkPercent 2 100) /\
  getAllowedSlippage (Sample.env "2/100") (Some "2%") = Ok (mkPercent 2 100).
Proof.
  split.
  - apply (getAllowedSlippage_configured_default
             (Sample.env "2/100") None "2" "100" 2 100);
      [reflexivity | reflexivity | reflexivity | left; reflexivity].
  - apply (getAllowedSlippage_configured_default
             (Sample.env "2/100") (Some "2%") "2" "100" 2 100);
      [reflexivity | reflexivity | reflexivity |
       right; exists "2%"; split; reflexivity].
Defined.

(** X2.  An override that the validator accepts decides the call alone: the
    answer, a tolerance or the error of a conversion, is the same under every
    configured default, which is not read. *)
Theorem getAllowedSlippage_accepted_override_alone
    (E : Env) (configured s : string) :
  isFractionString E s = true ->
  getAllowedSlippage (with_allowedSlippage configured E) (Some s)
  = getAllowedSlippage E (Some s).
Proof.
  intros Hs. unfold getAllowedSlippage. simpl isFractionString.
  rewrite Hs. reflexivity.
Qed.

Lemma getAllowedSlippage_accepted_override_alone_witness :
  getAllowedSlippage (with_allowedSlippage "2%" (Sample.env "2/100"))
                     (Some "3/1000")
  = getAllowedSlippage (Sample.env "2/100") (Some "3/1000").
Proof.
  apply (getAllowedSlippage_accepted_override_alone
           (Sample.env "2/100") "2%" "3/1000").
  reflexivity.
Defined.

(** ** Initialisation, continued *)

Section InitFacts.
Context (E : Env).

Lemma storeTokens_app (cid : Z) (front back : list TokenInfo)
    (tl : gmap string UniswapToken) :
  storeTokens E cid (front ++ back)%list tl =
  match storeTokens E cid front tl with
  | (Ok _, tl1) => storeTokens E cid back tl1
  | (Throw e, tl1) => (Throw e, tl1)
  end.
Proof.
  revert tl. induction front as [|token front IH]; intros tl; simpl.
  - reflexivity.
  - destruct (newUniswapToken E cid _ _ _ _) as [t|e]; [apply IH|reflexivity].
Qed.

(** What the loop leaves at an address when it goes through. *)
Lemma storeTokens_lookup (cid : Z) (tokens : list TokenInfo)
    (tl tl' : gmap string UniswapToken) (u : unit) (addr : string) :
  storeTokens E cid tokens tl = (Ok u, tl') ->
  match last_entry addr tokens with
  | Some entry =>
      exists t,
        newUniswapToken E cid (ti_address entry) (ti_decimals entry)
                        (ti_symbol entry) (ti_name entry) = Ok t /\
        tl' !! addr = Some t
  | None => tl' !! addr = tl !! addr
  end.
Proof.
  revert tl. induction tokens as [|token tokens IH]; intros tl; simpl.
  - intros Heq. inversion Heq; subst. reflexivity.
  - destruct (newUniswapToken E cid _ _ _ _) as [t|e] eqn:Hnew;
      [|discriminate].
    intros Hrest. specialize (IH _ Hrest).
    destruct (last_entry addr tokens) as [later|]; [exact IH|].
    destruct (String.eqb (ti_address token) addr) eqn:Haddr.
    + apply String.eqb_eq in Haddr. subst addr.
      exists t. split; [exact Hnew|].
      rewrite IH. apply lookup_insert_eq.
    + apply String.eqb_neq in Haddr.
      rewrite IH. apply lookup_insert_ne. exact Haddr.
Qed.

Lemma storeTokens_outcome (cid : Z) (tokens : list TokenInfo)
    (tl1 tl2 : gmap string UniswapToken) :
  fst (storeTokens E cid tokens tl1) = fst (storeTokens E cid tokens tl2).
Proof.
  revert tl1 tl2. induction tokens as [|token tokens IH]; intros tl1 tl2;
    simpl; [reflexivity|].
  destruct (newUniswapToken E cid _ _ _ _) as [t|e]; [apply IH|reflexivity].
Qed.

Lemma storeTokens_keeps (cid : Z) (tokens : list TokenInfo)
    (tl : gmap string UniswapToken) (addr : string) :
  is_Some (tl !! addr) ->
  is_Some (snd (storeTokens E cid tokens tl) !! addr).
Proof.
  revert tl. induction tokens as [|token tokens IH]; intros tl Hin; simpl.
  - exact Hin.
  - destruct (newUniswapToken E cid _ _ _ _) as [t|e]; [|exact Hin].
    apply IH. rewrite lookup_insert. case_decide; [eauto | exact Hin].
Qed.

(** X3.  After an [init] that completes, an address of the client's stored
    list resolves to the token built from the last entry of the list that
    has the address (a later entry replaces an earlier one).  Any other
    address resolves as it did before when no entry of the list has the
    address [__proto__]; when one has, the token built from the last such
    entry has become the prototype of the token list, so that a token stored
    before still resolves to itself and an address with no token of its own
    is read through that token. *)
Theorem init_stores_last_entry
    (hmy : Harmony) (this : Defira) (addr : string) :
  fst (init E hmy this) = Ok tt ->
  match last_entry addr (storedTokenList hmy) with
  | Some entry =>
      exists t,
        newUniswapToken E (chainId this) (ti_address entry)
                        (ti_decimals entry) (ti_symbol entry) (ti_name entry)
        = Ok t /\
        getTokenByAddress (snd (init E hmy this)) addr = Token t
  | None =>
      match last_entry "__proto__" (storedTokenList hmy) with
      | None =>
          getTokenByAddress (snd (init E hmy this)) addr
          = getTokenByAddress this addr
      | Some entry =>
          exists p,
            newUniswapToken E (chainId this) (ti_address entry)
                            (ti_decimals entry) (ti_symbol entry)
                            (ti_name entry)
            = Ok p /\
            getTokenByAddress (snd (init E hmy this)) addr
            = match tokenList this !! addr with
              | Some t => Token t
              | None => TokenMember p addr
              end
      end
  end.
Proof.
  unfold init, getTokenByAddress.
  destruct (String.eqb (_chain this) "harmony" && negb (hmy_ready hmy));
    simpl; [discriminate|].
  destruct (storeTokens E (chainId this) (storedTokenList hmy)
                        (tokenList this)) as [[u|e] tl] eqn:Hstore; simpl;
    [|discriminate].
  intros _.
  pose proof (storeTokens_lookup _ _ _ _ _ addr Hstore) as Haddr.
  pose proof (storeTokens_lookup _ _ _ _ _ "__proto__" Hstore) as Hproto.
  destruct (last_entry addr (storedTokenList hmy)) as [entry|].
  - destruct Haddr as (t & Hnew & ->). eauto.
  - rewrite Haddr.
    destruct (last_entry "__proto__" (storedTokenList hmy)) as [entry|].
    + destruct Hproto as (p & Hnew & ->). eauto.
    + rewrite Hproto. reflexivity.
Qed.

(** X4.  [init] never forgets a token: an address that resolves to a token
    of the list on a connector still resolves to a token of the list after
    any sequence of [init] calls, whether they complete or fail. *)
Theorem init_never_forgets
    (calls : list Harmony) (this : Defira) (addr : string) :
  (exists t, getTokenByAddress this addr = Token t) ->
  exists t, getTokenByAddress (inits E calls this) addr = Token t.
Proof.
  assert (Hown : forall d : Defira,
             (exists t, getTokenByAddress d addr = Token t)
             <-> is_Some (tokenList d !! addr)).
  { intros d. unfold getTokenByAddress. split.
    - intros [t Ht]. destruct (tokenList d !! addr); [eauto|].
      destruct (tokenList d !! "__proto__"); [discriminate|].
      destruct (inherited addr); discriminate.
    - intros [t ->]. eauto. }
  revert this. induction calls as [|hmy calls IH]; intros this Hin.
  - exact Hin.
  - unfold inits in *. simpl. apply IH.
    apply Hown. apply Hown in Hin. unfold init.
    destruct (String.eqb (_chain this) "harmony" && negb (hmy_ready hmy));
      simpl; [exact Hin|].
    pose proof (storeTokens_keeps (chainId this) (storedTokenList hmy)
                  (tokenList this) addr Hin) as Hkeep.
    destruct (storeTokens E (chainId this) (storedTokenList hmy)
                          (tokenList this)) as [[u|e] tl]; exact Hkeep.
Qed.

Lemma init_keeps_settings (hmy : Harmony) (this : Defira) :
  let after_init := snd (init E hmy this) in
  harmony after_init = harmony this /\
  _chain after_init = _chain this /\
  router after_init = router this /\
  _factory after_init = _factory this /\
  routerAbi after_init = routerAbi this /\
  gasLimit after_init = gasLimit this /\
  ttl after_init = ttl this /\
  chainId after_init = chainId this.
Proof.
  unfold init.
  destruct (String.eqb (_chain this) "harmony" && negb (hmy_ready hmy));
    simpl; [repeat split|].
  destruct (storeTokens E (chainId this) (storedTokenList hmy)
                        (tokenList this)) as [[u|e] tl]; repeat split.
Qed.

Lemma inits_frame (calls : list Harmony) (this : Defira) :
  let later := inits E calls this in
  harmony later = harmony this /\
  _chain later = _chain this /\
  router later = router this /\
  _factory later = _factory this /\
  routerAbi later = routerAbi this /\
  gasLimit later = gasLimit this /\
  ttl later = ttl this /\
  chainId later = chainId this.
Proof.
  revert this. induction calls as [|hmy calls IH]; intros this.
  - repeat split.
  - unfold inits in *. simpl.
    destruct (IH (snd (init E hmy this)))
      as (-> & -> & -> & -> & -> & -> & -> & ->).
    apply init_keeps_settings.
Qed.

(** X5.  [init] touches the token list and the ready flag only: after any
    sequence of [init] calls, completed or failed, the connector still
    reports the router address, the ABI, the gas limit, the time to live, the
    chain and its id that it had before, and its cached factory address. *)
Theorem inits_keep_settings (calls : list Harmony) (this : Defira) :
  let later := inits E calls this in
  harmony later = harmony this /\
  _chain later = _chain this /\
  router later = router this /\
  _factory later = _factory this /\
  routerAbi later = routerAbi this /\
  gasLimit later = gasLimit this /\
  ttl later = ttl this /\
  chainId later = chainId this.
Proof. exact (inits_frame calls this). Qed.

(** X6.  When the token constructor refuses an entry of the stored list and
    the readiness test passes, [init] throws the constructor's error with the
    entries before the refused one stored, the ready flag as it was, and the
    entries after it not looked at. *)
Theorem init_stops_at_refused_token
    (hmy : Harmony) (this : Defira) (front back : list TokenInfo)
    (refused : TokenInfo) (e : Exn) (tl : gmap string UniswapToken) :
  hmy_ready hmy = true ->
  storedTokenList hmy = (front ++ refused :: back)%list ->
  storeTokens E (chainId this) front (tokenList this) = (Ok tt, tl) ->
  newUniswapToken E (chainId this) (ti_address refused) (ti_decimals refused)
                  (ti_symbol refused) (ti_name refused) = Throw e ->
  init E hmy this = (Throw e, with_tokens this tl (_ready this)).
Proof.
  intros Hready Hlist Hfront Hnew. unfold init.
  rewrite Hready, andb_false_r, Hlist, storeTokens_app, Hfront. simpl.
  rewrite Hnew. reflexivity.
Qed.

(** X7.  [init] is idempotent: when it completes, running it again against
    the same client state completes too and changes nothing. *)
Theorem init_idempotent (hmy : Harmony) (this : Defira) :
  fst (init E hmy this) = Ok tt ->
  init E hmy (snd (init E hmy this)) = (Ok tt, snd (init E hmy this)).
Proof.
  unfold init.
  destruct (String.eqb (_chain this) "harmony" && negb (hmy_ready hmy))
    eqn:Hguard; simpl; [discriminate|].
  destruct (storeTokens E (chainId this) (storedTokenList hmy)
                        (tokenList this)) as [[u|e] tl] eqn:Hstore; simpl;
    [|discriminate].
  intros _. rewrite Hguard.
  pose proof (storeTokens_outcome (chainId this) (storedTokenList hmy)
                tl (tokenList this)) as Hsame.
  rewrite Hstore in Hsame. simpl in Hsame.
  destruct (storeTokens E (chainId this) (storedTokenList hmy) tl)
    as [r tl2] eqn:Hagain. simpl in Hsame. subst r.
  assert (Heq : tl2 = tl).
  { apply map_eq. intros addr.
    pose proof (storeTokens_lookup _ _ _ _ _ addr Hstore) as H1.
    pose proof (storeTokens_lookup _ _ _ _ _ addr Hagain) as H2.
    destruct (last_entry addr (storedTokenList hmy)) as [entry|].
    - destruct H1 as (t1 & Ht1 & ->). destruct H2 as (t2 & Ht2 & ->).
      congruence.
    - exact H2. }
  subst tl2. reflexivity.
Qed.
End InitFacts.

Lemma init_stores_last_entry_witness :
  let E := Sample.env "1/100" in
  let hmy := mkHarmony true Scenario.tokens_with_duplicate in
  exists t,
    newUniswapToken E (chainId (Sample.connector E)) "0xaa" 18 "NEW" "New name"
    = Ok t /\
    getTokenByAddress (snd (init E hmy (Sample.connector E))) "0xaa" = Token t.
Proof.
  intros E hmy.
  apply (init_stores_last_entry E hmy (Sample.connector E) "0xaa").
  vm_compute. reflexivity.
Defined.

Lemma init_never_forgets_witness :
  let E := Sample.env "1/100" in
  let this := snd (init E Sample.client_ready (Sample.connector E)) in
  let calls :=
    [mkHarmony true Scenario.tokens_with_bad_address; Sample.client_starting] in
  exists t,
    getTokenByAddress (inits E calls this) (address Sample.USDC) = Token t.
Proof.
  intros E this calls.
  apply (init_never_forgets E calls this (address Sample.USDC)).
  exists Sample.USDC. vm_compute. reflexivity.
Defined.

Lemma init_stops_at_refused_token_witness :
  let E := Sample.env "1/100" in
  let this := Sample.connector E in
  let hmy := mkHarmony true Scenario.tokens_with_bad_address in
  init E hmy this
  = (Throw (Rejected "bogus is not a valid address."),
     with_tokens this
       (<["0xaa" := mkToken 1666600000 "0xaa" 18 (Some "A") (Some "Token A")]>
          ∅)
       false).
Proof.
  intros E this hmy.
  apply (init_stops_at_refused_token E hmy this
           [mkTokenInfo "0xaa" 18 "A" "Token A"]
           [mkTokenInfo "0xcc" 6 "C" "Token C"]
           (mkTokenInfo "bogus" 6 "B" "Token B")); reflexivity.
Defined.

Lemma init_idempotent_witness :
  let E := Sample.env "1/100" in
  let once := snd (init E Sample.client_ready (Sample.connector E)) in
  init E Sample.client_ready once = (Ok tt, once).
Proof.
  intros E once.
  apply (init_idempotent E Sample.client_ready (Sample.connector E)).
  vm_compute. reflexivity.
Defined.

(** ** The registry, continued *)

Section RegistryMore.
Context (E : Env) (cid : string -> Z).

Lemma getInstance_present (chain network : string) (σ : Process) :
  is_Some (_instances σ) ->
  has_key (registry σ) (chain +:+ network) = true ->
  getInstance E cid chain network σ
  = (read_key (registry σ) (chain +:+ network), σ).
Proof.
  unfold getInstance, registry.
  destruct σ as [[insts|] hp nx]; simpl; intros [o Ho] Hkey; [|discriminate].
  rewrite Hkey. reflexivity.
Qed.

Lemma getInstance_instances (chain network : string) (σ : Process) :
  is_Some (_instances (snd (getInstance E cid chain network σ))).
Proof.
  unfold getInstance.
  destruct σ as [[insts|] hp nx]; simpl;
    match goal with
    | |- context [has_key ?o ?k] => destruct (has_key o k)
    end; simpl; eauto.
Qed.

Lemma run_ops_instances (ops : list Op) (σ : Process) :
  is_Some (_instances σ) -> is_Some (_instances (run_ops E cid ops σ)).
Proof.
  revert σ. induction ops as [|op ops IH]; intros σ Hσ; [exact Hσ|].
  change (run_ops E cid (op :: ops) σ)
    with (run_ops E cid ops (run_op E cid σ op)).
  apply IH. destruct op as [chain network | this hmy]; cbn [run_op].
  - apply getInstance_instances.
  - destruct (heap σ !! this); exact Hσ.
Qed.

Lemma getInstance_has_key (chain network : string) (σ : Process) :
  has_key (registry (snd (getInstance E cid chain network σ)))
          (chain +:+ network) = true.
Proof.
  unfold has_key.
  destruct (getInstance_cases chain network σ) as [l Hown | Hown Hinh | Hown Hinh].
  - destruct (getInstance_cached E cid _ _ _ _ Hown) as (_ & -> & _).
    rewrite Hown. reflexivity.
  - destruct (getInstance_inherited E cid _ _ _ Hown Hinh) as (_ & -> & _).
    rewrite Hown. exact Hinh.
  - destruct (getInstance_created E cid _ _ _ Hown Hinh) as (_ & -> & _).
    rewrite lookup_insert_eq. reflexivity.
Qed.

Lemma has_key_stable (σ1 σ2 : Process) (key : string) :
  (forall l, registry σ1 !! key = Some l -> registry σ2 !! key = Some l) ->
  has_key (registry σ1) key = true -> has_key (registry σ2) key = true.
Proof.
  unfold has_key. intros Hgrow.
  destruct (registry σ1 !! key) as [l|].
  - rewrite (Hgrow l eq_refl). auto.
  - destruct (registry σ2 !! key); auto.
Qed.

Lemma read_key_connector (o : gmap string loc) (key : string) (l : loc) :
  read_key o key = Some (Connector l) -> o !! key = Some l.
Proof.
  unfold read_key. destruct (o !! key); [congruence|].
  destruct (inherited key); discriminate.
Qed.

Lemma getInstance_cached_same (chain network : string) (σ : Process)
    (l : loc) :
  registry σ !! (chain +:+ network) = Some l ->
  getInstance E cid chain network σ = (Some (Connector l), σ).
Proof.
  intros Hkey. rewrite getInstance_present.
  - unfold read_key. rewrite Hkey. reflexivity.
  - destruct σ as [[insts|] hp nx]; [simpl; eauto|].
    unfold registry in Hkey. simpl in Hkey.
    rewrite lookup_empty in Hkey. discriminate.
  - unfold has_key. rewrite Hkey. reflexivity.
Qed.

Lemma getInstance_bounded (chain network : string) (σ : Process) :
  heap_bounded σ -> heap_bounded (snd (getInstance E cid chain network σ)).
Proof.
  intros Hb.
  destruct (getInstance_cases chain network σ) as [l Hown | Hown Hinh | Hown Hinh].
  - rewrite (getInstance_cached_same _ _ _ _ Hown). exact Hb.
  - destruct (getInstance_inherited E cid _ _ _ Hown Hinh)
      as (_ & _ & Hheap & Hnext).
    intros l d. rewrite Hheap, Hnext. apply Hb.
  - destruct (getInstance_created E cid _ _ _ Hown Hinh)
      as (_ & _ & Hheap & Hnext).
    intros l d. rewrite Hheap, Hnext, lookup_insert.
    case_decide; intros Hl; [lia|]. apply Hb in Hl. lia.
Qed.

Lemma run_op_bounded (op : Op) (σ : Process) :
  heap_bounded σ -> heap_bounded (run_op E cid σ op).
Proof.
  destruct op as [chain network | this hmy]; cbn [run_op].
  - apply getInstance_bounded.
  - destruct (heap σ !! this) as [d|] eqn:Hthis; [|auto].
    intros Hb l d'. cbn [heap next_loc]. rewrite lookup_insert.
    case_decide; intros Hl; [subst; eapply Hb, Hthis | eapply Hb, Hl].
Qed.

Lemma run_ops_bounded (ops : list Op) (σ : Process) :
  heap_bounded σ -> heap_bounded (run_ops E cid ops σ).
Proof.
  revert σ. induction ops as [|op ops IH]; intros σ Hb; [exact Hb|].
  apply IH, run_op_bounded, Hb.
Qed.

Lemma boot_bounded : heap_bounded boot.
Proof. intros l d H. unfold boot in H. simpl in H.
  rewrite lookup_empty in H. discriminate. Qed.

(** X8.  The registry is keyed by the concatenation of chain and network
    alone: two pairs with the same concatenation share one connector.  The
    second request answers the connector of the first and creates
    nothing. *)
Theorem getInstance_shares_equal_concatenations
    (before between : list Op) (chain1 network1 chain2 network2 : string) :
  chain1 +:+ network1 = chain2 +:+ network2 ->
  let first := getInstance E cid chain1 network1 (run_ops E cid before boot) in
  let later := run_ops E cid between (snd first) in
  let second := getInstance E cid chain2 network2 later in
  fst second = fst first /\ is_Some (fst first) /\ snd second = later.
Proof.
  intros Hkeys first later second.
  destruct (getInstance_is_Some E cid chain1 network1
              (run_ops E cid before boot)) as [r Hfirst].
  fold first in Hfirst.
  assert (Hwf : registry_wf later)
    by apply run_ops_wf, getInstance_wf, run_ops_wf, boot_wf.
  assert (Hgrow : forall l,
             registry (snd first) !! (chain1 +:+ network1) = Some l ->
             registry later !! (chain1 +:+ network1) = Some l)
    by (intros l; apply run_ops_keeps).
  assert (Hsecond : second
                    = (read_key (registry later) (chain2 +:+ network2), later)).
  { apply getInstance_present.
    - apply run_ops_instances, getInstance_instances.
    - rewrite <- Hkeys. apply (has_key_stable (snd first)); [exact Hgrow|].
      apply getInstance_has_key. }
  rewrite Hsecond. cbn [fst snd].
  split; [|split; [rewrite Hfirst; eauto | reflexivity]].
  rewrite <- Hkeys, Hfirst.
  apply (read_key_stable (snd first)); [exact Hwf | exact Hgrow |].
  rewrite <- Hfirst. symmetry. apply getInstance_answer.
Qed.

(** X9.  Asking twice in a row is asking once: the second [getInstance] with
    the same arguments answers what the first answered and leaves the
    process, registry and connectors, as the first left it. *)
Theorem getInstance_idempotent (chain network : string) (σ : Process) :
  let first := getInstance E cid chain network σ in
  getInstance E cid chain network (snd first) = first.
Proof.
  intros first.
  rewrite getInstance_present.
  - unfold first. rewrite <- getInstance_answer.
    destruct (getInstance E cid chain network σ); reflexivity.
  - apply getInstance_instances.
  - apply getInstance_has_key.
Qed.

(** X10.  A first request for a key that is not a name every object inherits
    allocates a connector that is new: its identity was not in use, it is
    not ready, its token list is empty (an address resolves to nothing,
    unless it is a name every object inherits), and it carries the chain,
    the network's router, the time to live, the gas limit and the chain id
    of its construction; the connectors that existed are left as they
    were. *)
Theorem getInstance_creates_fresh_connector
    (before : list Op) (chain network : string) :
  let σ := run_ops E cid before boot in
  let created := getInstance E cid chain network σ in
  registry σ !! (chain +:+ network) = None ->
  inherited (chain +:+ network) = false ->
  exists l d,
    fst created = Some (Connector l) /\
    heap σ !! l = None /\
    heap (snd created) !! l = Some d /\
    ready d = false /\
    tokenList d = ∅ /\
    (forall addr, getTokenByAddress d addr
                  = if inherited addr then ObjectMember addr else NoToken) /\
    _chain d = chain /\
    router d = config_routerAddress E network /\
    ttl d = config_ttl E /\
    gasLimit d = config_gasLimit E /\
    chainId d = cid network /\
    (forall l' d', heap σ !! l' = Some d' ->
                   heap (snd created) !! l' = Some d').
Proof.
  intros σ created Hnew Hinh.
  assert (Hb : heap_bounded σ) by apply run_ops_bounded, boot_bounded.
  destruct (getInstance_created E cid _ _ _ Hnew Hinh)
    as (Hans & _ & Hheap & _).
  fold created in Hans, Hheap.
  assert (Hfree : heap σ !! next_loc σ = None).
  { destruct (heap σ !! next_loc σ) as [d|] eqn:Hd; [|reflexivity].
    apply Hb in Hd. lia. }
  exists (next_loc σ), (newDefira E cid chain network).
  split; [exact Hans|]. split; [exact Hfree|].
  split; [rewrite Hheap; apply lookup_insert_eq|].
  split; [reflexivity|]. split; [reflexivity|].
  split.
  { intros addr. unfold getTokenByAddress, newDefira. cbn [tokenList].
    rewrite !lookup_empty. reflexivity. }
  do 5 (split; [reflexivity|]).
  intros l' d' Hl'. rewrite Hheap, lookup_insert_ne; [exact Hl'|].
  intros <-. congruence.
Qed.

Lemma size_invariant (ops : list Op) (σ : Process) :
  heap_bounded σ ->
  size (registry σ) = next_loc σ -> size (heap σ) = next_loc σ ->
  size (registry (run_ops E cid ops σ)) = next_loc (run_ops E cid ops σ) /\
  size (heap (run_ops E cid ops σ)) = next_loc (run_ops E cid ops σ).
Proof.
  revert σ. induction ops as [|op ops IH]; intros σ Hb Hreg Hheap;
    [split; assumption|].
  change (run_ops E cid (op :: ops) σ)
    with (run_ops E cid ops (run_op E cid σ op)).
  apply IH; [apply run_op_bounded, Hb | |];
    destruct op as [chain network | this hmy]; cbn [run_op].
  - destruct (getInstance_cases chain network σ)
      as [l Hown | Hown Hinh | Hown Hinh].
    + rewrite (getInstance_cached_same _ _ _ _ Hown). exact Hreg.
    + destruct (getInstance_inherited E cid _ _ _ Hown Hinh)
        as (_ & -> & _ & ->). exact Hreg.
    + destruct (getInstance_created E cid _ _ _ Hown Hinh)
        as (_ & -> & _ & ->).
      rewrite map_size_insert_None by exact Hown. lia.
  - destruct (heap σ !! this); exact Hreg.
  - destruct (getInstance_cases chain network σ)
      as [l Hown | Hown Hinh | Hown Hinh].
    + rewrite (getInstance_cached_same _ _ _ _ Hown). exact Hheap.
    + destruct (getInstance_inherited E cid _ _ _ Hown Hinh)
        as (_ & _ & -> & ->). exact Hheap.
    + destruct (getInstance_created E cid _ _ _ Hown Hinh)
        as (_ & _ & -> & ->).
      rewrite map_size_insert_None; [lia|].
      destruct (heap σ !! next_loc σ) as [d|] eqn:Hd; [|reflexivity].
      apply Hb in Hd. lia.
  - destruct (heap σ !! this) as [d|] eqn:Hthis; [|exact Hheap].
    cbn [heap next_loc]. rewrite map_size_insert_Some by eauto. exact Hheap.
Qed.

(** X11.  One connector per key: whatever a process has done, the number of
    connectors it has allocated is the number of keys of its registry. *)
Theorem registry_one_connector_per_key (ops : list Op) :
  let σ := run_ops E cid ops boot in
  size (heap σ) = size (registry σ) /\ size (heap σ) = next_loc σ.
Proof.
  intros σ.
  destruct (size_invariant ops boot boot_bounded) as [Hreg Hheap];
    [reflexivity | reflexivity |].
  fold σ in Hreg, Hheap. split; congruence.
Qed.

Lemma registry_keys (ops : list Op) (σ : Process) (key : string) :
  is_Some (registry (run_ops E cid ops σ) !! key) <->
  is_Some (registry σ !! key) \/
  (key ∈ requested_keys ops /\ inherited key = false).
Proof.
  revert σ. induction ops as [|op ops IH]; intros σ.
  - cbn. split; [auto|]. intros [H|[H _]]; [exact H|].
    apply elem_of_nil in H as [].
  - change (run_ops E cid (op :: ops) σ)
      with (run_ops E cid ops (run_op E cid σ op)).
    rewrite IH. destruct op as [chain network | this hmy];
      cbn [run_op requested_keys flat_map app].
    + rewrite elem_of_cons.
      destruct (getInstance_cases chain network σ)
        as [l Hown | Hown Hinh | Hown Hinh].
      * rewrite (getInstance_cached_same _ _ _ _ Hown). cbn [snd].
        split; [tauto|]. intros [H|[[->|H] Hk]]; eauto.
      * destruct (getInstance_inherited E cid _ _ _ Hown Hinh)
          as (_ & -> & _).
        split; [tauto|]. intros [H|[[->|H] Hk]]; auto. congruence.
      * destruct (getInstance_created E cid _ _ _ Hown Hinh) as (_ & -> & _).
        rewrite lookup_insert. case_decide.
        -- subst key. split; [auto|]. intros _. left. eauto.
        -- split; [tauto|]. intros [H'|[[->|H'] Hk]]; auto. congruence.
    + destruct (heap σ !! this); cbn [registry _instances]; tauto.
Qed.

(** X12.  The keys of the registry are the concatenations that were asked
    for and that are not names every object inherits, no more and no
    fewer. *)
Theorem registry_keys_are_requested (ops : list Op) (key : string) :
  is_Some (registry (run_ops E cid ops boot) !! key) <->
  key ∈ requested_keys ops /\ inherited key = false.
Proof.
  rewrite registry_keys. split; [|auto].
  intros [H|H]; [|exact H].
  unfold boot, registry in H. simpl in H. rewrite lookup_empty in H.
  destruct H as [? H]. discriminate.
Qed.

Lemma run_ops_stays_ready (ops : list Op) (σ : Process) (l : loc)
    (d : Defira) :
  heap_bounded σ -> heap σ !! l = Some d -> ready d = true ->
  exists d', heap (run_ops E cid ops σ) !! l = Some d' /\ ready d' = true.
Proof.
  revert σ d. induction ops as [|op ops IH]; intros σ d Hb Hl Hready;
    [eauto|].
  change (run_ops E cid (op :: ops) σ)
    with (run_ops E cid ops (run_op E cid σ op)).
  assert (Hstep : exists d1, heap (run_op E cid σ op) !! l = Some d1 /\
                             ready d1 = true).
  { destruct op as [chain network | this hmy]; cbn [run_op].
    - destruct (getInstance_cases chain network σ)
        as [l0 Hown | Hown Hinh | Hown Hinh].
      + rewrite (getInstance_cached_same _ _ _ _ Hown). eauto.
      + destruct (getInstance_inherited E cid _ _ _ Hown Hinh)
          as (_ & _ & -> & _). eauto.
      + destruct (getInstance_created E cid _ _ _ Hown Hinh)
          as (_ & _ & -> & _).
        exists d. split; [|exact Hready].
        rewrite lookup_insert_ne; [exact Hl|].
        intros <-. apply Hb in Hl. lia.
    - destruct (heap σ !! this) as [d0|] eqn:Hthis; [|eauto].
      cbn [heap]. rewrite lookup_insert. case_decide; [|eauto].
      subst this. rewrite Hl in Hthis. injection Hthis as <-.
      eexists. split; [reflexivity|].
      rewrite init_ready_monotone, Hready. reflexivity. }
  destruct Hstep as (d1 & Hl1 & Hready1).
  eapply IH; [apply run_op_bounded, Hb | exact Hl1 | exact Hready1].
Qed.

(** X13.  Initialisation sticks to the shared connector: once an [init] of
    the connector that [getInstance] answered has completed, every later
    [getInstance] with the same arguments answers that connector and finds it
    ready, whatever the process did in between (other requests, other
    [init] calls, failed ones included). *)
Theorem initialised_connector_stays_ready
    (before between : list Op) (chain network : string) (hmy : Harmony)
    (l : loc) (d : Defira) :
  let first := getInstance E cid chain network (run_ops E cid before boot) in
  let initialised := run_op E cid (snd first) (CallInit l hmy) in
  let second :=
    getInstance E cid chain network (run_ops E cid between initialised) in
  fst first = Some (Connector l) ->
  heap (snd first) !! l = Some d ->
  fst (init E hmy d) = Ok tt ->
  fst second = Some (Connector l) /\
  exists d', heap (snd second) !! l = Some d' /\ ready d' = true.
Proof.
  intros first initialised second Hfirst Hd Hinit.
  assert (Hb1 : heap_bounded (snd first))
    by apply getInstance_bounded, run_ops_bounded, boot_bounded.
  assert (Hb2 : heap_bounded initialised) by apply run_op_bounded, Hb1.
  assert (Hreg : registry (run_ops E cid between initialised)
                 !! (chain +:+ network) = Some l).
  { apply run_ops_keeps, run_op_keeps, read_key_connector.
    unfold first in *. rewrite <- getInstance_answer. exact Hfirst. }
  unfold second. rewrite (getInstance_cached_same _ _ _ _ Hreg).
  cbn [fst snd]. split; [reflexivity|].
  apply (run_ops_stays_ready between initialised l (snd (init E hmy d)) Hb2).
  - unfold initialised. cbn [run_op]. rewrite Hd. cbn [heap].
    apply lookup_insert_eq.
  - rewrite init_ready_monotone, Hinit. apply orb_true_r.
Qed.
End RegistryMore.

Lemma getInstance_shares_equal_concatenations_witness :
  let E := Sample.env "1/100" in
  let first := getInstance E Sample.chain_ids "harmony" "mainnet" boot in
  let second :=
    getInstance E Sample.chain_ids "harmonymain" "net" (snd first) in
  fst second = fst first /\ is_Some (fst first) /\ snd second = snd first.
Proof.
  intros E.
  apply (getInstance_shares_equal_concatenations E Sample.chain_ids [] []
           "harmony" "mainnet" "harmonymain" "net").
  reflexivity.
Defined.

Lemma getInstance_creates_fresh_connector_witness :
  let E := Sample.env "1/100" in
  let created := getInstance E Sample.chain_ids "harmony" "mainnet" boot in
  exists l d,
    fst created = Some (Connector l) /\
    heap boot !! l = None /\
    heap (snd created) !! l = Some d /\
    ready d = false /\
    tokenList d = ∅ /\
    (forall addr, getTokenByAddress d addr
                  = if inherited addr then ObjectMember addr else NoToken) /\
    _chain d = "harmony" /\
    router d = "0xrouter-mainnet" /\
    ttl d = 300 /\
    gasLimit d = 200000 /\
    chainId d = 1666600000 /\
    (forall l' d', heap boot !! l' = Some d' ->
                   heap (snd created) !! l' = Some d').
Proof.
  intros E.
  apply (getInstance_creates_fresh_connector E Sample.chain_ids []
           "harmony" "mainnet"); vm_compute; reflexivity.
Defined.

Lemma registry_keys_are_requested_witness :
  let E := Sample.env "1/100" in
  let ops := [CallGetInstance "harmony" "mainnet";
              CallInit 0%nat Sample.client_ready;
              CallGetInstance "const" "ructor";
              CallGetInstance "harmony" "testnet"] in
  is_Some (registry (run_ops E Sample.chain_ids ops boot) !! "harmonytestnet")
  /\ registry (run_ops E Sample.chain_ids ops boot) !! "constructor" = None.
Proof.
  intros E ops. split.
  - apply (registry_keys_are_requested E Sample.chain_ids ops "harmonytestnet").
    split; [|reflexivity]. apply list_elem_of_In. vm_compute. auto.
  - vm_compute. reflexivity.
Defined.

Lemma initialised_connector_stays_ready_witness :
  let E := Sample.env "1/100" in
  let first := getInstance E Sample.chain_ids "harmony" "mainnet" boot in
  let initialised :=
    run_op E Sample.chain_ids (snd first) (CallInit 0%nat Sample.client_ready) in
  let between := [CallGetInstance "harmony" "testnet";
                  CallInit 0%nat Sample.client_starting] in
  let second :=
    getInstance E Sample.chain_ids "harmony" "mainnet"
                (run_ops E Sample.chain_ids between initialised) in
  fst second = Some (Connector 0%nat) /\
  exists d', heap (snd second) !! 0%nat = Some d' /\ ready d' = true.
Proof.
  intros E first initialised between second.
  apply (initialised_connector_stays_ready E Sample.chain_ids [] between
           "harmony" "mainnet" Sample.client_ready 0%nat
           (newDefira E Sample.chain_ids "harmony" "mainnet"));
    vm_compute; reflexivity.
Defined.

(** ** Quoting, continued *)

Section EstimateMore.
Context (E : Env) {W : Type} (H : Handlers W).

(** X14.  An estimate reads and never writes: whatever its outcome, it asks
    the nonce manager nothing, commits no nonce, submits nothing, and fetches
    at most one pair, the pair of (quoteToken, baseToken) through the
    connector's provider. *)
Theorem estimates_touch_only_the_fetcher
    (w : W) (this : Defira) (baseToken quoteToken : UniswapToken)
    (amount : Z) (allowedSlippage : option string) :
  let sell := exec H (estimateSellTrade E this baseToken quoteToken amount
                        allowedSlippage) w in
  let buy := exec H (estimateBuyTrade E this quoteToken baseToken amount
                       allowedSlippage) w in
  let quiet (t : list Event) :=
    nonce_requests t = [] /\ commits t = [] /\ submitted_overrides t = [] /\
    (fetches t = [] \/ fetches t = [(quoteToken, baseToken, harmony this)]) in
  quiet (trace sell) /\ quiet (trace buy).
Proof.
  split.
  - unfold estimateSellTrade.
    destruct (newUniswapTokenAmount E baseToken amount) as [native|e]; simpl;
      [|auto].
    next_answer; [|auto 6].
    destruct (bestTradeExactIn E [pair] _ quoteToken _)
      as [[[|best others]|]|e]; simpl; auto 6.
    destruct (executionPrice_toFixed6 E best) as [price|e]; simpl; [|auto 6].
    destruct (getAllowedSlippage E allowedSlippage) as [tolerance|e]; simpl;
      [|auto 6].
    destruct (minimumAmountOut E best tolerance); simpl; auto 6.
  - unfold estimateBuyTrade.
    destruct (newUniswapTokenAmount E baseToken amount) as [native|e]; simpl;
      [|auto].
    next_answer; [|auto 6].
    destruct (bestTradeExactOut E [pair] quoteToken _ _)
      as [[[|best others]|]|e]; simpl; auto 6.
    destruct (executionPrice_invert_toFixed6 E best) as [price|e]; simpl;
      [|auto 6].
    destruct (getAllowedSlippage E allowedSlippage) as [tolerance|e]; simpl;
      [|auto 6].
    destruct (maximumAmountIn E best tolerance); simpl; auto 6.
Qed.

(** X15.  An amount that the token-amount constructor refuses ends either
    estimate at its first statement: the constructor's error is thrown before
    anything is logged or fetched, and the world is untouched. *)
Theorem estimate_refused_amount
    (w : W) (this : Defira) (baseToken quoteToken : UniswapToken)
    (amount : Z) (allowedSlippage : option string) (e : Exn) :
  newUniswapTokenAmount E baseToken amount = Throw e ->
  exec H (estimateSellTrade E this baseToken quoteToken amount
            allowedSlippage) w = mkRun [] (Throw e) w /\
  exec H (estimateBuyTrade E this quoteToken baseToken amount
            allowedSlippage) w = mkRun [] (Throw e) w.
Proof.
  intros Hamount. unfold estimateSellTrade, estimateBuyTrade.
  rewrite Hamount. split; reflexivity.
Qed.

(** X16.  A failure of the pair fetch goes to the caller as it is: either
    estimate throws the fetcher's error after one log line and the one fetch,
    with no trade searched for and no slippage resolved. *)
Theorem estimate_fetch_failure
    (w w' : W) (this : Defira) (baseToken quoteToken : UniswapToken)
    (amount : Z) (allowedSlippage : option string)
    (nativeTokenAmount : UniswapTokenAmount) (e : Exn) :
  newUniswapTokenAmount E baseToken amount = Ok nativeTokenAmount ->
  on_fetchPairData H quoteToken baseToken (harmony this) w = (Throw e, w') ->
  exec H (estimateSellTrade E this baseToken quoteToken amount
            allowedSlippage) w
  = mkRun [Logged (LogText ("Fetching pair data for " +:+
                            address baseToken +:+ "-" +:+
                            address quoteToken +:+ "."));
           Fetched quoteToken baseToken (harmony this) (Throw e)]
          (Throw e) w' /\
  exec H (estimateBuyTrade E this quoteToken baseToken amount
            allowedSlippage) w
  = mkRun [Logged (LogText ("Fetching pair data for " +:+
                            address quoteToken +:+ "-" +:+
                            address baseToken +:+ "."));
           Fetched quoteToken baseToken (harmony this) (Throw e)]
          (Throw e) w'.
Proof.
  intros Hamount Hfetch. unfold estimateSellTrade, estimateBuyTrade.
  rewrite Hamount. cbn [bind lift exec]. rewrite Hfetch.
  split; reflexivity.
Qed.

(** X17.  The price error comes before the slippage tolerance is looked
    at: when the search finds no trade (no list, or an empty one), either
    estimate throws a [UniswapishPriceError], that of [estimateBuyTrade]
    naming the two addresses, whatever the slippage override and the
    configured default are, a malformed one included. *)
Theorem estimate_no_trade_price_error
    (w w' : W) (this : Defira) (baseToken quoteToken : UniswapToken)
    (amount : Z) (allowedSlippage : option string)
    (nativeTokenAmount : UniswapTokenAmount) (pair : UniswapPair)
    (trades : option (list UniswapTrade)) :
  newUniswapTokenAmount E baseToken amount = Ok nativeTokenAmount ->
  on_fetchPairData H quoteToken baseToken (harmony this) w = (Ok pair, w') ->
  trades = None \/ trades = Some [] ->
  (bestTradeExactOut E [pair] quoteToken nativeTokenAmount
                     (mkBestTradeOptions 1) = Ok trades ->
   outcome (exec H (estimateBuyTrade E this quoteToken baseToken amount
                      allowedSlippage) w)
   = Throw (UniswapishPriceError
              ("priceSwapOut: no trade pair found for " +:+
               address quoteToken +:+ " to " +:+ address baseToken +:+ "."))) /\
  (bestTradeExactIn E [pair] nativeTokenAmount quoteToken
                    (mkBestTradeOptions 1) = Ok trades ->
   exists message,
     outcome (exec H (estimateSellTrade E this baseToken quoteToken amount
                        allowedSlippage) w)
     = Throw (UniswapishPriceError message)).
Proof.
  intros Hamount Hfetch Hnone. split; intros Hbest.
  - eapply estimateBuyTrade_no_trade; eassumption.
  - eexists. eapply estimateSellTrade_no_trade; eassumption.
Qed.

(** X18.  The slippage tolerance is resolved last: when a trade is found,
    its price prints for the log line, and the tolerance does not resolve,
    the estimate throws the tolerance's error only after the pair was
    fetched and the best trade logged.  (A price that does not print ends the
    estimate earlier, with its own error: see X19.) *)
Theorem estimate_slippage_failure_after_fetch
    (w w' : W) (this : Defira) (baseToken quoteToken : UniswapToken)
    (amount : Z) (allowedSlippage : option string)
    (nativeTokenAmount : UniswapTokenAmount) (pair : UniswapPair)
    (best : UniswapTrade) (others : list UniswapTrade) (price : string)
    (e : Exn) :
  newUniswapTokenAmount E baseToken amount = Ok nativeTokenAmount ->
  on_fetchPairData H quoteToken baseToken (harmony this) w = (Ok pair, w') ->
  getAllowedSlippage E allowedSlippage = Throw e ->
  (bestTradeExactIn E [pair] nativeTokenAmount quoteToken
                    (mkBestTradeOptions 1) = Ok (Some (best :: others)) ->
   executionPrice_toFixed6 E best = Ok price ->
   let r := exec H (estimateSellTrade E this baseToken quoteToken amount
                      allowedSlippage) w in
   outcome r = Throw e /\ world r = w' /\ length (trace r) = 3%nat /\
   fetches (trace r) = [(quoteToken, baseToken, harmony this)]) /\
  (bestTradeExactOut E [pair] quoteToken nativeTokenAmount
                     (mkBestTradeOptions 1) = Ok (Some (best :: others)) ->
   executionPrice_invert_toFixed6 E best = Ok price ->
   let r := exec H (estimateBuyTrade E this quoteToken baseToken amount
                      allowedSlippage) w in
   outcome r = Throw e /\ world r = w' /\ length (trace r) = 3%nat /\
   fetches (trace r) = [(quoteToken, baseToken, harmony this)]).
Proof.
  intros Hamount Hfetch Htol.
  split; intros Hbest Hprice; unfold estimateSellTrade, estimateBuyTrade;
    rewrite Hamount; cbn [bind lift exec]; rewrite Hfetch;
    cbn [bind lift after outcome firstTrade]; rewrite Hbest;
    cbn [bind lift firstTrade]; rewrite Hprice;
    cbn [bind lift exec after outcome]; rewrite Htol;
    repeat split.
Qed.

(** X19.  The estimators return when every step does, the printing of the
    price for the log line included: with the amount accepted, the pair
    fetched, a first trade found, its price printed, the tolerance resolved
    and the slippage-adjusted amount computed, the answer is that first trade
    with that amount, and the other trades found play no part.  When the
    price of the first trade does not print, the estimate throws that error
    after the fetch, before the tolerance is looked at. *)
Theorem estimates_return
    (w w' : W) (this : Defira) (baseToken quoteToken : UniswapToken)
    (amount : Z) (allowedSlippage : option string)
    (nativeTokenAmount : UniswapTokenAmount) (pair : UniswapPair)
    (best : UniswapTrade) (others : list UniswapTrade) :
  newUniswapTokenAmount E baseToken amount = Ok nativeTokenAmount ->
  on_fetchPairData H quoteToken baseToken (harmony this) w = (Ok pair, w') ->
  (bestTradeExactIn E [pair] nativeTokenAmount quoteToken
                    (mkBestTradeOptions 1) = Ok (Some (best :: others)) ->
   let r := exec H (estimateSellTrade E this baseToken quoteToken amount
                      allowedSlippage) w in
   (forall price tolerance expected,
      executionPrice_toFixed6 E best = Ok price ->
      getAllowedSlippage E allowedSlippage = Ok tolerance ->
      minimumAmountOut E best tolerance = Ok expected ->
      outcome r = Ok (mkExpectedTrade best expected)) /\
   (forall e,
      executionPrice_toFixed6 E best = Throw e ->
      outcome r = Throw e /\ length (trace r) = 2%nat)) /\
  (bestTradeExactOut E [pair] quoteToken nativeTokenAmount
                     (mkBestTradeOptions 1) = Ok (Some (best :: others)) ->
   let r := exec H (estimateBuyTrade E this quoteToken baseToken amount
                      allowedSlippage) w in
   (forall price tolerance expected,
      executionPrice_invert_toFixed6 E best = Ok price ->
      getAllowedSlippage E allowedSlippage = Ok tolerance ->
      maximumAmountIn E best tolerance = Ok expected ->
      outcome r = Ok (mkExpectedTrade best expected)) /\
   (forall e,
      executionPrice_invert_toFixed6 E best = Throw e ->
      outcome r = Throw e /\ length (trace r) = 2%nat)).
Proof.
  intros Hamount Hfetch. split; intros Hbest r; split.
  - intros price tolerance expected Hprice Htol Hexpected.
    eapply estimateSellTrade_returns; eassumption.
  - intros e Hprice. unfold r, estimateSellTrade.
    rewrite Hamount; cbn [bind lift exec]; rewrite Hfetch;
      cbn [bind lift after outcome firstTrade]; rewrite Hbest;
      cbn [bind lift firstTrade]; rewrite Hprice. split; reflexivity.
  - intros price tolerance expected Hprice Htol Hexpected.
    eapply estimateBuyTrade_returns; eassumption.
  - intros e Hprice. unfold r, estimateBuyTrade.
    rewrite Hamount; cbn [bind lift exec]; rewrite Hfetch;
      cbn [bind lift after outcome firstTrade]; rewrite Hbest;
      cbn [bind lift firstTrade]; rewrite Hprice. split; reflexivity.
Qed.
End EstimateMore.

Lemma estimate_no_trade_price_error_witness :
  let E := Sample.env "not a percent" in
  outcome (exec Sample.handlers
             (estimateBuyTrade E (Sample.connector E) Sample.USDC Sample.WONE
                1000 None) Sample.world_dry)
  = Throw (UniswapishPriceError
             ("priceSwapOut: no trade pair found for " +:+
              address Sample.USDC +:+ " to " +:+ address Sample.WONE +:+ ".")).
Proof.
  intros E.
  destruct (estimate_no_trade_price_error E Sample.handlers Sample.world_dry
              Sample.world_dry (Sample.connector E) Sample.WONE Sample.USDC
              1000 None (mkTokenAmount Sample.WONE 1000) Sample.dry_pool
              (Some []))
    as [Hbuy _]; [reflexivity | reflexivity | right; reflexivity |].
  apply Hbuy. reflexivity.
Defined.

Lemma estimate_refused_amount_witness :
  let E := Sample.env "1/100" in
  exec Sample.handlers
    (estimateSellTrade E (Sample.connector E) Sample.WONE Sample.USDC (-1)
       None) Sample.world0
  = mkRun [] (Throw (Rejected "not a uint256")) Sample.world0.
Proof.
  intros E.
  apply (estimate_refused_amount E Sample.handlers Sample.world0
           (Sample.connector E) Sample.WONE Sample.USDC (-1) None).
  reflexivity.
Defined.

Lemma estimate_fetch_failure_witness :
  let E := Sample.env "1/100" in
  outcome (exec Sample.handlers
             (estimateBuyTrade E (Sample.connector E) Sample.USDC Sample.WONE
                1000 None) Scenario.world_without_pool)
  = Throw (Rejected "no pool").
Proof.
  intros E.
  destruct (estimate_fetch_failure E Sample.handlers
              Scenario.world_without_pool Scenario.world_without_pool
              (Sample.connector E) Sample.WONE Sample.USDC 1000 None
              (mkTokenAmount Sample.WONE 1000) (Rejected "no pool"))
    as [_ Hbuy]; [reflexivity | reflexivity |].
  rewrite Hbuy. reflexivity.
Defined.

Lemma estimate_slippage_failure_after_fetch_witness :
  let E := Sample.env "not a percent" in
  let r := exec Sample.handlers
             (estimateSellTrade E (Sample.connector E) Sample.WONE Sample.USDC
                1000000000000000000000 None) Sample.world0 in
  outcome r = Throw malformed_percent /\ world r = Sample.world0 /\
  length (trace r) = 3%nat /\
  fetches (trace r) = [(Sample.USDC, Sample.WONE, "mainnet")].
Proof.
  intros E.
  destruct (estimate_slippage_failure_after_fetch E Sample.handlers
              Sample.world0 Sample.world0 (Sample.connector E)
              Sample.WONE Sample.USDC 1000000000000000000000 None
              (mkTokenAmount Sample.WONE 1000000000000000000000)
              Sample.wone_usdc
              (mkTrade [Sample.wone_usdc] EXACT_INPUT
                 (mkTokenAmount Sample.WONE 1000000000000000000000)
                 (mkTokenAmount Sample.USDC 9968012)) [] "0.010000"
              malformed_percent)
    as [Hsell _]; [reflexivity | reflexivity | reflexivity |].
  apply Hsell; reflexivity.
Defined.

Lemma estimates_return_witness :
  let E := Sample.env "1/100" in
  outcome (exec Sample.handlers
             (estimateSellTrade E (Sample.connector E) Sample.WONE Sample.USDC
                1000000000000000000000 None) Sample.world0)
  = Ok (mkExpectedTrade
          (mkTrade [Sample.wone_usdc] EXACT_INPUT
             (mkTokenAmount Sample.WONE 1000000000000000000000)
             (mkTokenAmount Sample.USDC 9968012))
          (mkTokenAmount Sample.USDC 9869318)) /\
  outcome (exec Sample.handlers
             (estimateBuyTrade E (Sample.connector E) Sample.USDC Sample.WONE
                0 None) Sample.world0)
  = Throw (Rejected "[big.js] Division by zero").
Proof.
  intros E. split.
  - destruct (estimates_return E Sample.handlers Sample.world0 Sample.world0
                (Sample.connector E) Sample.WONE Sample.USDC
                1000000000000000000000 None
                (mkTokenAmount Sample.WONE 1000000000000000000000)
                Sample.wone_usdc
                (mkTrade [Sample.wone_usdc] EXACT_INPUT
                   (mkTokenAmount Sample.WONE 1000000000000000000000)
                   (mkTokenAmount Sample.USDC 9968012)) [])
      as [Hsell _]; [reflexivity | reflexivity |].
    apply (proj1 (Hsell eq_refl) "0.010000" (mkPercent 1 100)); reflexivity.
  - destruct (estimates_return E Sample.handlers Sample.world0 Sample.world0
                (Sample.connector E) Sample.WONE Sample.USDC 0 None
                (mkTokenAmount Sample.WONE 0) Sample.wone_usdc
                (mkTrade [Sample.wone_usdc] EXACT_OUTPUT
                   (mkTokenAmount Sample.USDC 1)
                   (mkTokenAmount Sample.WONE 0)) [])
      as [_ Hbuy]; [reflexivity | reflexivity |].
    apply (proj2 (Hbuy eq_refl)). reflexivity.
Defined.

(** ** Execution, continued *)

Section ExecutionMore.
Context (E : Env) {W : Type} (H : Handlers W).

(** X20.  A call that returns has gone through every step: the transaction
    returned is the one the contract call answered, made once on the contract
    built from the router address, the ABI and the wallet given by the
    caller, with the method and arguments derived for the wallet's address as
    recipient; before it, a nonce was asked for only if the caller gave none;
    after it, the transaction was logged and the nonce used was committed and
    acknowledged. *)
Theorem executeTrade_returns_submitted_transaction
    (w : W) (this : Defira) (wallet : Wallet) (trade : UniswapTrade)
    (gasPrice gasLimit : number) (defiraRouter : string) (ttl : Z)
    (abi : ContractInterface) (nonce : option Z)
    (maxFeePerGas maxPriorityFeePerGas : option Z)
    (allowedSlippage : option string) (tx : ContractTransaction) :
  let r := exec H (executeTrade E this wallet trade gasPrice defiraRouter ttl
                     abi gasLimit nonce maxFeePerGas maxPriorityFeePerGas
                     allowedSlippage) w in
  outcome r = Ok tx ->
  exists tolerance parameters contract n u,
    getAllowedSlippage E allowedSlippage = Ok tolerance /\
    swapCallParameters E trade
      (mkTradeOptions ttl (wallet_address wallet) tolerance) = Ok parameters /\
    newContract E defiraRouter abi wallet = Ok contract /\
    trace r =
      (match nonce with
       | None => [NonceRequested (wallet_address wallet) (Ok n)]
       | Some _ => []
       end ++
       [Submitted contract (methodName parameters) (args parameters)
          (if feeBranch maxFeePerGas maxPriorityFeePerGas then
             feeOverrides gasLimit (value parameters) n
                          maxFeePerGas maxPriorityFeePerGas
           else gasPriceOverrides gasPrice gasLimit (value parameters) n)
          (Ok tx);
        Logged (LogTx tx);
        NonceCommitted (wallet_address wallet) n (Ok u)])%list /\
    (forall supplied, nonce = Some supplied -> n = supplied).
Proof.
  unfold executeTrade.
  destruct (getAllowedSlippage E allowedSlippage) as [tolerance|e]; simpl;
    [|discriminate].
  destruct (swapCallParameters E trade _) as [parameters|e] eqn:Hparams;
    simpl; [|discriminate].
  destruct (newContract E defiraRouter abi wallet) as [contract|e]; simpl;
    [|discriminate].
  destruct nonce as [n|]; simpl; [|next_answer; [|discriminate]];
    destruct (feeBranch maxFeePerGas maxPriorityFeePerGas); run_all;
    try discriminate; intros [= <-];
    exists tolerance, parameters, contract, n, u;
    (repeat split; try reflexivity; try exact Hparams);
    congruence.
Qed.

(** X21.  The call returns exactly when [commitNonce] was acknowledged.  So
    when the transaction was submitted and the commit is refused, the call
    fails with the error of the commit, which is the last thing it did: the
    caller does not get the transaction that went out. *)
Theorem executeTrade_returns_iff_commit_acknowledged
    (w : W) (this : Defira) (wallet : Wallet) (trade : UniswapTrade)
    (gasPrice gasLimit : number) (defiraRouter : string) (ttl : Z)
    (abi : ContractInterface) (nonce : option Z)
    (maxFeePerGas maxPriorityFeePerGas : option Z)
    (allowedSlippage : option string) :
  let r := exec H (executeTrade E this wallet trade gasPrice defiraRouter ttl
                     abi gasLimit nonce maxFeePerGas maxPriorityFeePerGas
                     allowedSlippage) w in
  is_ok (outcome r) = existsb is_acknowledged_commit (trace r) /\
  (forall e, outcome r = Throw e ->
             submission_succeeded (trace r) = true ->
             exists n, last (trace r)
                       = Some (NonceCommitted (wallet_address wallet) n
                                              (Throw e))).
Proof.
  unfold executeTrade.
  destruct (getAllowedSlippage E allowedSlippage) as [tolerance|e]; simpl;
    [|split; [reflexivity | discriminate]].
  destruct (swapCallParameters E trade _) as [parameters|e]; simpl;
    [|split; [reflexivity | discriminate]].
  destruct (newContract E defiraRouter abi wallet) as [contract|e]; simpl;
    [|split; [reflexivity | discriminate]].
  destruct nonce as [n|]; simpl;
    [|next_answer; [|split; [reflexivity | discriminate]]];
    destruct (feeBranch maxFeePerGas maxPriorityFeePerGas); run_all;
    (split; [reflexivity|]); intros e' He' Hsub;
    try discriminate; injection He' as <-; eauto.
Qed.

(** X22.  Both kinds of submission carry the same three fields besides the
    fee fields: the gas limit printed by [toFixed(0)], the value of the
    derived call parameters and the nonce used; the overrides hold four
    fields on the gas-price path and five on the fee path, nothing else. *)
Theorem executeTrade_common_override_fields
    (w : W) (this : Defira) (wallet : Wallet) (trade : UniswapTrade)
    (gasPrice gasLimit : number) (defiraRouter : string) (ttl : Z)
    (abi : ContractInterface) (nonce : option Z)
    (maxFeePerGas maxPriorityFeePerGas : option Z)
    (allowedSlippage : option string) :
  let r := exec H (executeTrade E this wallet trade gasPrice defiraRouter ttl
                     abi gasLimit nonce maxFeePerGas maxPriorityFeePerGas
                     allowedSlippage) w in
  Forall
    (fun o =>
       field "gasLimit" o = Some (JString (toFixed0 gasLimit)) /\
       (exists tolerance parameters,
          getAllowedSlippage E allowedSlippage = Ok tolerance /\
          swapCallParameters E trade
            (mkTradeOptions ttl (wallet_address wallet) tolerance)
          = Ok parameters /\
          field "value" o = Some (JString (value parameters))) /\
       (exists n, field "nonce" o = Some (JNumber n) /\
                  (forall supplied, nonce = Some supplied -> n = supplied)) /\
       map fst o =
         if feeBranch maxFeePerGas maxPriorityFeePerGas
         then ["gasLimit"; "value"; "nonce"; "maxFeePerGas";
               "maxPriorityFeePerGas"]
         else ["gasPrice"; "gasLimit"; "value"; "nonce"])
    (submitted_overrides (trace r)).
Proof.
  unfold executeTrade.
  destruct (getAllowedSlippage E allowedSlippage) as [tolerance|e]; simpl;
    [|constructor].
  destruct (swapCallParameters E trade _) as [parameters|e] eqn:Hparams;
    simpl; [|constructor].
  destruct (newContract E defiraRouter abi wallet) as [contract|e]; simpl;
    [|constructor].
  destruct nonce as [n|]; simpl; [|next_answer; [|constructor]];
    destruct (feeBranch maxFeePerGas maxPriorityFeePerGas); run_all;
    (constructor; [|constructor]);
    (split; [reflexivity|]);
    (split; [exists tolerance, parameters; repeat split; assumption|]);
    (split; [exists n; split; [reflexivity | congruence] | reflexivity]).
Qed.

(** X23.  With a fee argument given, the gas price argument plays no part:
    two calls that differ in it alone run alike, event for event, to the
    same outcome and the same world. *)
Theorem executeTrade_fee_branch_ignores_gasPrice
    (w : W) (this : Defira) (wallet : Wallet) (trade : UniswapTrade)
    (gasPrice1 gasPrice2 gasLimit : number) (defiraRouter : string)
    (ttl : Z) (abi : ContractInterface) (nonce : option Z)
    (maxFeePerGas maxPriorityFeePerGas : option Z)
    (allowedSlippage : option string) :
  maxFeePerGas <> None \/ maxPriorityFeePerGas <> None ->
  exec H (executeTrade E this wallet trade gasPrice1 defiraRouter ttl abi
            gasLimit nonce maxFeePerGas maxPriorityFeePerGas allowedSlippage) w
  = exec H (executeTrade E this wallet trade gasPrice2 defiraRouter ttl abi
              gasLimit nonce maxFeePerGas maxPriorityFeePerGas
              allowedSlippage) w.
Proof.
  intros Hfee.
  assert (Hbranch : feeBranch maxFeePerGas maxPriorityFeePerGas = true).
  { unfold feeBranch.
    destruct maxFeePerGas, maxPriorityFeePerGas; try reflexivity.
    destruct Hfee as [Hfee | Hfee]; contradiction Hfee; reflexivity. }
  unfold executeTrade. rewrite Hbranch. reflexivity.
Qed.

(** X24.  A call that fails before the nonce step is silent: when the
    tolerance does not resolve, or the call parameters are not derived, or
    the contract handle is not built, the error is thrown with no event at
    all (no nonce asked for, nothing submitted, nothing logged) and the world
    is untouched, whether or not the caller gave a nonce. *)
Theorem executeTrade_early_failure_is_silent
    (w : W) (this : Defira) (wallet : Wallet) (trade : UniswapTrade)
    (gasPrice gasLimit : number) (defiraRouter : string) (ttl : Z)
    (abi : ContractInterface) (nonce : option Z)
    (maxFeePerGas maxPriorityFeePerGas : option Z)
    (allowedSlippage : option string) (e : Exn) :
  (getAllowedSlippage E allowedSlippage = Throw e \/
   exists tolerance,
     getAllowedSlippage E allowedSlippage = Ok tolerance /\
     (swapCallParameters E trade
        (mkTradeOptions ttl (wallet_address wallet) tolerance) = Throw e \/
      exists parameters,
        swapCallParameters E trade
          (mkTradeOptions ttl (wallet_address wallet) tolerance)
        = Ok parameters /\
        newContract E defiraRouter abi wallet = Throw e)) ->
  exec H (executeTrade E this wallet trade gasPrice defiraRouter ttl abi
            gasLimit nonce maxFeePerGas maxPriorityFeePerGas allowedSlippage) w
  = mkRun [] (Throw e) w.
Proof.
  unfold executeTrade.
  intros [Htol | (tolerance & Htol & [Hparams | (parameters & Hparams & Hc)])];
    rewrite Htol; simpl; [reflexivity | |]; rewrite Hparams; simpl;
    [reflexivity|]. rewrite Hc. reflexivity.
Qed.

(** X25.  When the nonce manager fails to hand out a nonce, the call throws
    its error at once: nothing is submitted and nothing is committed. *)
Theorem executeTrade_nonce_manager_down
    (w w' : W) (this : Defira) (wallet : Wallet) (trade : UniswapTrade)
    (gasPrice gasLimit : number) (defiraRouter : string) (ttl : Z)
    (abi : ContractInterface) (maxFeePerGas maxPriorityFeePerGas : option Z)
    (allowedSlippage : option string)
    (tolerance : UniswapPercent) (parameters : SwapParameters)
    (contract : Contract) (e : Exn) :
  getAllowedSlippage E allowedSlippage = Ok tolerance ->
  swapCallParameters E trade
    (mkTradeOptions ttl (wallet_address wallet) tolerance) = Ok parameters ->
  newContract E defiraRouter abi wallet = Ok contract ->
  on_getNonce H (wallet_address wallet) w = (Throw e, w') ->
  exec H (executeTrade E this wallet trade gasPrice defiraRouter ttl abi
            gasLimit None maxFeePerGas maxPriorityFeePerGas allowedSlippage) w
  = mkRun [NonceRequested (wallet_address wallet) (Throw e)] (Throw e) w'.
Proof.
  intros Htol Hparams Hcontract Hnonce. unfold executeTrade.
  rewrite Htol. simpl. rewrite Hparams. simpl. rewrite Hcontract. simpl.
  rewrite Hnonce. reflexivity.
Qed.

(** X26.  A refused submission strands the nonce: in a call without a nonce
    whose submission is refused, the nonce manager has handed out a nonce,
    the call throws the error of the submission, and it ends there, with no
    commit and no further word to the nonce manager about that nonce. *)
Theorem executeTrade_refused_submission_strands_nonce
    (w w1 w2 : W) (this : Defira) (wallet : Wallet) (trade : UniswapTrade)
    (gasPrice gasLimit : number) (defiraRouter : string) (ttl : Z)
    (abi : ContractInterface) (maxFeePerGas maxPriorityFeePerGas : option Z)
    (allowedSlippage : option string)
    (tolerance : UniswapPercent) (parameters : SwapParameters)
    (contract : Contract) (n : Z) (e : Exn) :
  let overrides :=
    if feeBranch maxFeePerGas maxPriorityFeePerGas then
      feeOverrides gasLimit (value parameters) n
                   maxFeePerGas maxPriorityFeePerGas
    else gasPriceOverrides gasPrice gasLimit (value parameters) n in
  getAllowedSlippage E allowedSlippage = Ok tolerance ->
  swapCallParameters E trade
    (mkTradeOptions ttl (wallet_address wallet) tolerance) = Ok parameters ->
  newContract E defiraRouter abi wallet = Ok contract ->
  on_getNonce H (wallet_address wallet) w = (Ok n, w1) ->
  on_contractCall H contract (methodName parameters) (args parameters)
                  overrides w1 = (Throw e, w2) ->
  exec H (executeTrade E this wallet trade gasPrice defiraRouter ttl abi
            gasLimit None maxFeePerGas maxPriorityFeePerGas allowedSlippage) w
  = mkRun [NonceRequested (wallet_address wallet) (Ok n);
           Submitted contract (methodName parameters) (args parameters)
                     overrides (Throw e)]
          (Throw e) w2.
Proof.
  intros overrides Htol Hparams Hcontract Hnonce Hcall. unfold executeTrade.
  rewrite Htol. simpl. rewrite Hparams. simpl. rewrite Hcontract. simpl.
  rewrite Hnonce. simpl. subst overrides.
  destruct (feeBranch maxFeePerGas maxPriorityFeePerGas); simpl;
    rewrite Hcall; reflexivity.
Qed.
(** X27.  What only [commitNonce] can change stays as it was when no
    submission is accepted: for any reading of the world that [getNonce] and
    the contract call leave alone (the committed nonces of a nonce manager,
    say), the reading after a call without an accepted submission is the
    reading before the call. *)
Theorem executeTrade_without_submission_keeps_commit_state
    {X : Type} (reading : W -> X)
    (w : W) (this : Defira) (wallet : Wallet) (trade : UniswapTrade)
    (gasPrice gasLimit : number) (defiraRouter : string) (ttl : Z)
    (abi : ContractInterface) (nonce : option Z)
    (maxFeePerGas maxPriorityFeePerGas : option Z)
    (allowedSlippage : option string) :
  (forall addr w0, reading (snd (on_getNonce H addr w0)) = reading w0) ->
  (forall c m a o w0,
     reading (snd (on_contractCall H c m a o w0)) = reading w0) ->
  let r := exec H (executeTrade E this wallet trade gasPrice defiraRouter ttl
                     abi gasLimit nonce maxFeePerGas maxPriorityFeePerGas
                     allowedSlippage) w in
  submission_succeeded (trace r) = false ->
  reading (world r) = reading w.
Proof. apply executeTrade_refused_keeps_watermark. Qed.
End ExecutionMore.

Lemma executeTrade_returns_submitted_transaction_witness :
  let E := Sample.env "1/100" in
  let r := exec Sample.handlers
             (executeTrade E (Sample.connector E) Sample.alice Sample.a_trade
                (js_number 30) "0xrouter" 300 [] (js_number 200000)
                (Some 7) (Some 5) None None) Sample.world0 in
  exists tolerance parameters contract n u,
    getAllowedSlippage E None = Ok tolerance /\
    swapCallParameters E Sample.a_trade
      (mkTradeOptions 300 "0xA11CE" tolerance) = Ok parameters /\
    newContract E "0xrouter" [] Sample.alice = Ok contract /\
    trace r =
      [Submitted contract (methodName parameters) (args parameters)
         (feeOverrides (js_number 200000) (value parameters) n
                       (Some 5) None)
         (Ok (mkContractTransaction "0xhash"));
       Logged (LogTx (mkContractTransaction "0xhash"));
       NonceCommitted "0xA11CE" n (Ok u)] /\
    (forall supplied, Some 7 = Some supplied -> n = supplied).
Proof.
  intros E r.
  apply (executeTrade_returns_submitted_transaction E Sample.handlers
           Sample.world0 (Sample.connector E) Sample.alice Sample.a_trade
           (js_number 30) (js_number 200000) "0xrouter" 300 [] (Some 7)
           (Some 5) None None (mkContractTransaction "0xhash")).
  reflexivity.
Defined.

Lemma executeTrade_returns_iff_commit_acknowledged_witness :
  let E := Sample.env "1/100" in
  let r := exec Scenario.handlers_refusing_commit
             (executeTrade E (Sample.connector E) Sample.alice Sample.a_trade
                (js_number 30) "0xrouter" 300 [] (js_number 200000)
                None None None None) Sample.world0 in
  exists n, last (trace r)
            = Some (NonceCommitted "0xA11CE" n
                                   (Throw (Rejected "commit refused"))).
Proof.
  intros E r.
  apply (proj2 (executeTrade_returns_iff_commit_acknowledged E
                  Scenario.handlers_refusing_commit Sample.world0
                  (Sample.connector E) Sample.alice Sample.a_trade
                  (js_number 30) (js_number 200000) "0xrouter" 300 []
                  None None None None));
    reflexivity.
Defined.

Lemma executeTrade_fee_branch_ignores_gasPrice_witness :
  let E := Sample.env "1/100" in
  let call (gasPrice : number) :=
    executeTrade E (Sample.connector E) Sample.alice Sample.a_trade gasPrice
      "0xrouter" 300 [] (js_number 200000) None None (Some 2) None in
  exec Sample.handlers (call (js_number 30)) Sample.world0
  = exec Sample.handlers (call (js_number 9999)) Sample.world0.
Proof.
  intros E call.
  apply (executeTrade_fee_branch_ignores_gasPrice E Sample.handlers
           Sample.world0 (Sample.connector E) Sample.alice Sample.a_trade
           (js_number 30) (js_number 9999) (js_number 200000) "0xrouter"
           300 [] None None (Some 2) None).
  right. discriminate.
Defined.

Lemma executeTrade_early_failure_is_silent_witness :
  let E := Sample.env "1/100" in
  exec Sample.handlers
    (executeTrade E (Sample.connector E) Sample.alice Sample.a_trade
       (js_number 30) "0xrouter" 0 [] (js_number 200000)
       (Some 7) None None None) Sample.world0
  = mkRun [] (Throw (Rejected "TTL")) Sample.world0.
Proof.
  intros E.
  apply (executeTrade_early_failure_is_silent E Sample.handlers Sample.world0
           (Sample.connector E) Sample.alice Sample.a_trade
           (js_number 30) (js_number 200000) "0xrouter" 0 [] (Some 7)
           None None None (Rejected "TTL")).
  right. exists (mkPercent 1 100). split; [reflexivity|].
  left. reflexivity.
Defined.

Lemma executeTrade_nonce_manager_down_witness :
  let E := Sample.env "1/100" in
  exec Scenario.handlers_without_nonces
    (executeTrade E (Sample.connector E) Sample.alice Sample.a_trade
       (js_number 30) "0xrouter" 300 [] (js_number 200000)
       None None None None) Sample.world0
  = mkRun [NonceRequested "0xA11CE" (Throw (Rejected "nonce manager down"))]
          (Throw (Rejected "nonce manager down")) Sample.world0.
Proof.
  intros E.
  apply (executeTrade_nonce_manager_down E Scenario.handlers_without_nonces
           Sample.world0 Sample.world0 (Sample.connector E) Sample.alice
           Sample.a_trade (js_number 30) (js_number 200000) "0xrouter" 300
           [] None None None (mkPercent 1 100)
           (mkSwapParameters "swapExactTokensForTokens"
                             [ArgString "0xA11CE"] "0x0")
           (mkContract "0xrouter" [] Sample.alice)
           (Rejected "nonce manager down"));
    reflexivity.
Defined.

Lemma executeTrade_refused_submission_strands_nonce_witness :
  let E := Sample.env "1/100" in
  let r := exec Sample.handlers
             (executeTrade E (Sample.connector E) Sample.alice Sample.a_trade
                (js_number 30) "0xrouter" 300 [] (js_number 200000)
                None None None None) Sample.world_down in
  nonces_acquired (trace r) = [("0xA11CE", 1)] /\
  commits (trace r) = [] /\
  outcome r = Throw (Rejected "node down").
Proof.
  intros E r. unfold r.
  rewrite (executeTrade_refused_submission_strands_nonce E Sample.handlers
             Sample.world_down Sample.world_down Sample.world_down
             (Sample.connector E) Sample.alice Sample.a_trade
             (js_number 30) (js_number 200000) "0xrouter" 300 []
             None None None (mkPercent 1 100)
             (mkSwapParameters "swapExactTokensForTokens"
                               [ArgString "0xA11CE"] "0x0")
             (mkContract "0xrouter" [] Sample.alice) 1
             (Rejected "node down"));
    repeat split; reflexivity.
Defined.

Lemma executeTrade_without_submission_keeps_commit_state_witness :
  let E := Sample.env "1/100" in
  let r := exec Sample.handlers
             (executeTrade E (Sample.connector E) Sample.alice Sample.a_trade
                (js_number 30) "0xrouter" 300 [] (js_number 200000)
                None None None None) Sample.world_down in
  Sample.committed (world r) = Sample.committed Sample.world_down.
Proof.
  intros E r.
  apply (executeTrade_without_submission_keeps_commit_state E Sample.handlers
           Sample.committed Sample.world_down (Sample.connector E)
           Sample.alice Sample.a_trade (js_number 30) (js_number 200000)
           "0xrouter" 300 [] None None None None);
    reflexivity.
Defined.

(** ** The factory address *)

Section FactoryFacts.
Context (E : Env) {W : Type}.
Context (newReadContract :
           string -> ContractInterface -> string -> result ReadContract).
Context (on_factory : ReadContract -> W -> result (option string) * W).

(** A call that answers a non-empty address leaves it cached. *)
Lemma factory_caches (this : Defira) (w : W) (a : string) :
  fr_outcome (factory newReadContract on_factory this w) = Ok (Some a) ->
  _factory (fr_this (factory newReadContract on_factory this w)) = Some a.
Proof.
  unfold factory.
  destruct (falsy (_factory this)); simpl; [|congruence].
  destruct (newReadContract _ _ _) as [c|e]; simpl; [|discriminate].
  destruct (on_factory c w) as [[answer|e] w']; simpl; congruence.
Qed.

(** X28.  The factory address is asked for once: after a call of
    [factory()] has answered a non-empty address, every later call, also
    after any [init] calls and in any world, answers that address without
    building a contract or querying the router, and changes nothing. *)
Theorem factory_memoized
    (this : Defira) (w w2 : W) (a : string) (calls : list Harmony) :
  fr_outcome (factory newReadContract on_factory this w) = Ok (Some a) ->
  a <> "" ->
  let cached := inits E calls (fr_this (factory newReadContract on_factory this w)) in
  factory newReadContract on_factory cached w2
  = mkFactoryRun (Ok (Some a)) cached [] w2.
Proof.
  intros Hfirst Hne cached.
  assert (Hcached : _factory cached = Some a).
  { unfold cached.
    destruct (inits_frame E calls
                (fr_this (factory newReadContract on_factory this w)))
      as (_ & _ & _ & -> & _).
    apply factory_caches, Hfirst. }
  unfold factory. rewrite Hcached. simpl.
  apply String.eqb_neq in Hne. rewrite Hne. reflexivity.
Qed.

(** X29.  Nothing but a non-empty address is remembered: when a call of
    [factory()] on an unresolved connector fails, or is answered [null] or
    the empty string, the next call builds the contract and queries the
    router again. *)
Theorem factory_unresolved_asks_again
    (this : Defira) (w w2 : W) (c : ReadContract) :
  falsy (_factory this) = true ->
  newReadContract (router this) (routerAbi this) (harmony this) = Ok c ->
  ((exists e, fr_outcome (factory newReadContract on_factory this w) = Throw e) \/
   fr_outcome (factory newReadContract on_factory this w) = Ok None \/
   fr_outcome (factory newReadContract on_factory this w) = Ok (Some "")) ->
  fr_queried (factory newReadContract on_factory this w) = [c] /\
  fr_queried (factory newReadContract on_factory (fr_this (factory newReadContract on_factory this w)) w2) = [c].
Proof.
  intros Hfalsy Hnew Hout. unfold factory, router, routerAbi in *.
  rewrite Hfalsy, Hnew in Hout. rewrite Hfalsy, Hnew.
  destruct (on_factory c w) as [[answer|e] w'] eqn:Hfirst;
    cbn [fr_outcome fr_this fr_queried] in *.
  - assert (Hanswer : answer = None \/ answer = Some "").
    { destruct Hout as [[e He] | [Ho | Ho]];
        [discriminate | left | right]; congruence. }
    split; [reflexivity|].
    destruct Hanswer as [-> | ->];
      cbn [with_factory _factory _router _routerAbi harmony falsy String.eqb];
      rewrite Hnew;
      destruct (on_factory c w2) as [[answer2|e2] w2']; reflexivity.
  - split; [reflexivity|]. rewrite Hfalsy, Hnew.
    destruct (on_factory c w2) as [[answer2|e2] w2']; reflexivity.
Qed.

(** X30.  [factory()] and [init] do not interfere: done in either order
    from the same connector, they give the same answers, the same query to
    the router and the same connector in the end. *)
Theorem factory_commutes_with_init
    (this : Defira) (hmy : Harmony) (w : W) :
  let factory_first := factory newReadContract on_factory this w in
  let init_second := init E hmy (fr_this factory_first) in
  let init_first := init E hmy this in
  let factory_second := factory newReadContract on_factory (snd init_first) w in
  fst init_second = fst init_first /\
  fr_outcome factory_second = fr_outcome factory_first /\
  fr_queried factory_second = fr_queried factory_first /\
  fr_world factory_second = fr_world factory_first /\
  fr_this factory_second = snd init_second.
Proof.
  unfold factory, init, router, routerAbi.
  destruct this as [hm ch rt fc abi gl tt0 cidv tl rd]; simpl.
  destruct (String.eqb ch "harmony" && negb (hmy_ready hmy)) eqn:Hguard;
    simpl;
    [|destruct (storeTokens E cidv (storedTokenList hmy) tl)
        as [[u|e] tl'] eqn:Hstore; simpl];
    (destruct (falsy fc); simpl;
     [destruct (newReadContract rt abi hm) as [c|e0]; simpl;
      [destruct (on_factory c w) as [[answer|e1] w']; simpl|]|]);
    rewrite ?Hguard; simpl; rewrite ?Hstore; simpl;
    repeat split; reflexivity.
Qed.
End FactoryFacts.

Lemma factory_memoized_witness :
  let E := Sample.env "1/100" in
  let first :=
    factory Scenario.read_contract Scenario.router_answers
            (Sample.connector E) 0%nat in
  let cached := inits E [Sample.client_ready] (fr_this first) in
  factory Scenario.read_contract Scenario.router_answers cached 1%nat
  = mkFactoryRun (Ok (Some "0xfactory")) cached [] 1%nat.
Proof.
  intros E first cached.
  apply (factory_memoized E Scenario.read_contract Scenario.router_answers
           (Sample.connector E) 0%nat 1%nat "0xfactory"
           [Sample.client_ready]);
    [reflexivity | discriminate].
Defined.

Lemma factory_unresolved_asks_again_witness :
  let E := Sample.env "1/100" in
  let this := Sample.connector E in
  let c := mkReadContract "0xrouter-mainnet" (routerAbi_abi E) "mainnet" in
  let first :=
    factory Scenario.read_contract Scenario.router_answers_empty this 0%nat in
  fr_queried first = [c] /\
  fr_queried (factory Scenario.read_contract Scenario.router_answers_empty
                      (fr_this first) 1%nat) = [c].
Proof.
  intros E this c first.
  apply (factory_unresolved_asks_again Scenario.read_contract
           Scenario.router_answers_empty this 0%nat 1%nat c);
    [reflexivity | reflexivity | right; right; reflexivity].
Defined.
